(** * DockMan: resource listing, refresh and command orchestration

    A shallow embedding of the command-running, listing, parsing and
    operation code of [dockerman.py], and the properties of it that the
    specification states.

    Conventions of the embedding.
    - Python [str] is [string]; a character is a code point below 256.
    - Global widgets ([tree], [output_box], the status indicator and label),
      the log file and the external runtime are fields of one [State] that
      every function threads through the state monad [M].
    - [threading.Thread(target=f).start()] records the started job; a job is
      run by [run_job].  Two refreshes that run at the same time are studied
      as interleavings of their Treeview calls, each call one step, on a
      Treeview whose items carry the identifiers that Tk gives them.
    - The answers of the operator to dialogs are arguments of the function
      that opens the dialog. *)

From Stdlib Require Import String Ascii List Bool Arith ZArith Lia.
Import ListNotations.
Local Open Scope list_scope.
Local Open Scope string_scope.

(* ================================================================== *)
(** ** Python string primitives                                        *)
(* ================================================================== *)

Module Py.

Definition chr (n : nat) : ascii := ascii_of_nat n.
Definition str1 (c : ascii) : string := String c EmptyString.

(** The characters the source writes as escapes or that cannot be typed in a
    literal here. *)
Definition NL : ascii := chr 10.
Definition nl : string := str1 NL.
Definition DQ : ascii := chr 34.
Definition dq : string := str1 DQ.

(** [bool(s)]: a string is truthy iff it is not empty. *)
Definition truthy (s : string) : bool :=
  match s with EmptyString => false | String _ _ => true end.

(** [str.isspace] for one character, on code points below 256:
    TAB LF VT FF CR, FS GS RS US, SPACE, NEL (0x85), NBSP (0xA0). *)
Definition isspace (c : ascii) : bool :=
  let n := nat_of_ascii c in
  (((9 <=? n) && (n <=? 13)) || ((28 <=? n) && (n <=? 32))
   || (n =? 133) || (n =? 160))%nat.

Fixpoint lstrip_by (p : ascii -> bool) (s : string) : string :=
  match s with
  | EmptyString => EmptyString
  | String c s' => if p c then lstrip_by p s' else s
  end.

Fixpoint rstrip_by (p : ascii -> bool) (s : string) : string :=
  match s with
  | EmptyString => EmptyString
  | String c s' =>
      match rstrip_by p s' with
      | EmptyString => if p c then EmptyString else str1 c
      | r => String c r
      end
  end.

(** [s.strip()] *)
Definition strip (s : string) : string := rstrip_by isspace (lstrip_by isspace s).

(** [s.strip(chars)] for a one-character [chars]. *)
Definition strip_char (ch : ascii) (s : string) : string :=
  rstrip_by (Ascii.eqb ch) (lstrip_by (Ascii.eqb ch) s).

(** [s.split(sep)] for a one-character separator: never the empty list. *)
Fixpoint split (sep : ascii) (s : string) : list string :=
  match s with
  | EmptyString => [EmptyString]
  | String c s' =>
      if Ascii.eqb c sep then EmptyString :: split sep s'
      else match split sep s' with
           | [] => [str1 c]
           | f :: fs => String c f :: fs
           end
  end.

(** [sub in s] on strings. *)
Fixpoint contains (sub s : string) : bool :=
  if String.prefix sub s then true
  else match s with
       | EmptyString => false
       | String _ s' => contains sub s'
       end.

(** [x in l] on a list of strings. *)
Definition str_in (x : string) (l : list string) : bool :=
  existsb (String.eqb x) l.

(** [s.lower()] for one character, on code points below 256: the capitals
    are A-Z and the Latin-1 letters 0xC0-0xD6 and 0xD8-0xDE, each 32 below
    its small letter. *)
Definition lower_char (c : ascii) : ascii :=
  let n := nat_of_ascii c in
  if (((65 <=? n) && (n <=? 90)) || ((192 <=? n) && (n <=? 214))
      || ((216 <=? n) && (n <=? 222)))%nat
  then chr (n + 32) else c.

Fixpoint lower (s : string) : string :=
  match s with
  | EmptyString => EmptyString
  | String c s' => String (lower_char c) (lower s')
  end.

(** Every character of [s] satisfies [p]. *)
Fixpoint all_chars (p : ascii -> bool) (s : string) : bool :=
  match s with
  | EmptyString => true
  | String c s' => p c && all_chars p s'
  end.

(** [sep.join(fields)] for a one-character separator. *)
Fixpoint join (sep : ascii) (fields : list string) : string :=
  match fields with
  | [] => EmptyString
  | [f] => f
  | f :: rest => f ++ String sep (join sep rest)
  end.

(** [l[i]] where the source has checked [len(l) > i]. *)
Definition item (l : list string) (i : nat) : string := nth i l EmptyString.

End Py.

(* ================================================================== *)
(** ** The fragment of [re] that [validate_docker_id] uses             *)
(* ================================================================== *)

Module Re.

(** Pattern items: [^], [$] and a greedy bounded-below repetition of a
    character class, [[...]{min,}]. *)
Inductive atom : Type :=
| Bol : atom
| Eol : atom
| ClassAtLeast (cls : ascii -> bool) (min : nat) : atom.

Definition pattern := list atom.

(** [$] without MULTILINE: at the end of the string, or just before a
    newline that is the last character of the string. *)
Definition at_eol (rest : string) : bool :=
  match rest with
  | EmptyString => true
  | String c EmptyString => Ascii.eqb c Py.NL
  | _ => false
  end.

(** [k at_start rest] is the match of the rest of the pattern.  The
    repetition tries every admissible number of characters (the engine
    backtracks), so the greedy order does not change the answer. *)
Fixpoint repeat_class (cls : ascii -> bool) (need : nat)
         (k : bool -> string -> bool) (at_start : bool) (s : string) : bool :=
  match s with
  | String c s' =>
      if cls c
      then repeat_class cls (pred need) k false s'
           || ((need =? 0)%nat && k at_start s)
      else (need =? 0)%nat && k at_start s
  | EmptyString => (need =? 0)%nat && k at_start s
  end.

Fixpoint match_from (p : pattern) (at_start : bool) (s : string) : bool :=
  match p with
  | [] => true
  | Bol :: p' => at_start && match_from p' at_start s
  | Eol :: p' => at_eol s && match_from p' at_start s
  | ClassAtLeast cls n :: p' => repeat_class cls n (match_from p') at_start s
  end.

(** [pattern.match(s) is not None]: a match anchored at position 0. *)
Definition matches (p : pattern) (s : string) : bool := match_from p true s.

(** The class [[a-zA-Z0-9]]. *)
Definition alnum (c : ascii) : bool :=
  let n := nat_of_ascii c in
  (((97 <=? n) && (n <=? 122)) || ((65 <=? n) && (n <=? 90))
   || ((48 <=? n) && (n <=? 57)))%nat.

End Re.

(** [re.compile(r'^[a-zA-Z0-9]{12,}$')] *)
Definition docker_id_pattern : Re.pattern :=
  [Re.Bol; Re.ClassAtLeast Re.alnum 12; Re.Eol].

(** The value [is_valid] that [validate_docker_id] computes and returns. *)
Definition docker_id_is_valid (docker_id : string) : bool :=
  Re.matches docker_id_pattern docker_id.

(* ================================================================== *)
(** ** Program state and the monad of the embedding                    *)
(* ================================================================== *)

(** Severity of a [logging] call; [logging.exception] logs at [ERROR]. *)
Inductive level : Type := DEBUG | INFO | WARNING | ERROR.

(** What launching a shell command and waiting for it gives: the launch
    raised, or the process ended with its two streams and exit status. *)
Inductive popen_result : Type :=
| Raised (e : string)
| Exited (stdout stderr : string) (returncode : Z).

(** The external runtime answers a command line from the command lines
    issued before it (oldest first). *)
Definition Runtime : Type := list string -> string -> popen_result.

(** A Treeview item: [text], [values] (whose first component the program
    uses as the item type; every [tree.insert] of the program gives one) and
    [tags].  The identifier that Tk gives an item is added in
    [Treeview.entry], where two tasks share the Treeview. *)
Record row : Type := mkRow {
  text : string;
  type_of : string;
  columns : list string;
  tags : list string
}.

Inductive box_kind : Type := ShowInfo | ShowWarning | ShowError.

(** Targets of the threads that the modelled functions start. *)
Inductive job : Type :=
| Task (command item_type : string)
| RebuildContainerThread (container_id image_name : string)
| CopyContainerThread (container_id new_container_name : string).

Record State : Type := mkState {
  runtime : Runtime;
  issued : list string;            (* command lines run so far, oldest first *)
  log : list (level * string);     (* dockerman.log, oldest first *)
  tree : list row;                 (* root children of the Treeview, in order *)
  focus : option row;              (* the item [tree.focus()] names, if any *)
  output_box : string;             (* text of the output box *)
  status_indicator : string;       (* bg of the status indicator *)
  status_label : string;           (* text of the status label *)
  boxes : list (box_kind * string * string);  (* message boxes shown *)
  started : list job               (* threads started, oldest first *)
}.

Definition M (A : Type) : Type := State -> A * State.

Definition ret {A} (x : A) : M A := fun s => (x, s).

Definition bind {A B} (c : M A) (f : A -> M B) : M B :=
  fun s => let (x, s') := c s in f x s'.

Declare Scope monad_scope.
Delimit Scope monad_scope with monad.
Notation "x <- c1 ;; c2" := (bind c1 (fun x => c2))
  (at level 61, c1 at next level, right associativity) : monad_scope.
Notation "' pat <- c1 ;; c2" := (bind c1 (fun x => match x with pat => c2 end))
  (at level 61, pat pattern, c1 at next level, right associativity) : monad_scope.
Notation "c1 ;; c2" := (bind c1 (fun _ => c2))
  (at level 61, right associativity) : monad_scope.
Local Open Scope monad_scope.

Definition exec {A} (c : M A) (s : State) : State := snd (c s).
Definition eval {A} (c : M A) (s : State) : A := fst (c s).

(** [for x in l: body(x)] *)
Fixpoint for_each {A} (body : A -> M unit) (l : list A) : M unit :=
  match l with
  | [] => ret tt
  | x :: l' => body x ;; for_each body l'
  end.

(** *** Primitive effects *)

Definition set_issued (v : list string) (s : State) : State :=
  mkState (runtime s) v (log s) (tree s) (focus s) (output_box s)
          (status_indicator s) (status_label s) (boxes s) (started s).
Definition set_log (v : list (level * string)) (s : State) : State :=
  mkState (runtime s) (issued s) v (tree s) (focus s) (output_box s)
          (status_indicator s) (status_label s) (boxes s) (started s).
Definition set_tree (v : list row) (s : State) : State :=
  mkState (runtime s) (issued s) (log s) v (focus s) (output_box s)
          (status_indicator s) (status_label s) (boxes s) (started s).
Definition set_focus (v : option row) (s : State) : State :=
  mkState (runtime s) (issued s) (log s) (tree s) v (output_box s)
          (status_indicator s) (status_label s) (boxes s) (started s).
Definition set_output_box (v : string) (s : State) : State :=
  mkState (runtime s) (issued s) (log s) (tree s) (focus s) v
          (status_indicator s) (status_label s) (boxes s) (started s).
Definition set_status (bg label : string) (s : State) : State :=
  mkState (runtime s) (issued s) (log s) (tree s) (focus s) (output_box s)
          bg label (boxes s) (started s).
Definition set_boxes (v : list (box_kind * string * string)) (s : State) : State :=
  mkState (runtime s) (issued s) (log s) (tree s) (focus s) (output_box s)
          (status_indicator s) (status_label s) v (started s).
Definition set_started (v : list job) (s : State) : State :=
  mkState (runtime s) (issued s) (log s) (tree s) (focus s) (output_box s)
          (status_indicator s) (status_label s) (boxes s) v.

(** Hand a command line to the shell and wait for the process. *)
Definition shell (command : string) : M popen_result :=
  fun s => (runtime s (issued s) command, set_issued (issued s ++ [command]) s).

(** [logging.debug], [logging.info], [logging.error], ... *)
Definition logging (l : level) (msg : string) : M unit :=
  fun s => (tt, set_log (log s ++ [(l, msg)]) s).

(** [output_box.insert(tk.END, txt)] *)
Definition output_box_insert (txt : string) : M unit :=
  fun s => (tt, set_output_box (output_box s ++ txt) s).

(** [messagebox.showinfo/showwarning/showerror(title, message)] *)
Definition messagebox (k : box_kind) (title message : string) : M unit :=
  fun s => (tt, set_boxes (boxes s ++ [(k, title, message)]) s).

(** [threading.Thread(target=j).start()] *)
Definition thread_start (j : job) : M unit :=
  fun s => (tt, set_started (started s ++ [j]) s).

(** [tree.insert("", "end", text=.., values=.., tags=..)] *)
Definition tree_insert (r : row) : M unit :=
  fun s => (tt, set_tree (tree s ++ [r]) s).

Definition is_project (r : row) : bool := type_of r =? "project".

(** The loop
    [for item in tree.get_children():
         if tree.item(item)['values'][0] != "project": tree.delete(item)];
    Tk drops the focus when the focused item is deleted. *)
Definition tree_clear_except_projects : M unit :=
  fun s =>
    (tt, set_focus (match focus s with
                    | Some r => if is_project r then Some r else None
                    | None => None
                    end)
                   (set_tree (filter is_project (tree s)) s)).

Definition tree_focus : M (option row) := fun s => (focus s, s).

(** [status_indicator.config(bg=..)] and [status_label.config(text=..)] *)
Definition status_config (bg label : string) : M unit :=
  fun s => (tt, set_status bg label s).

(* ================================================================== *)
(** ** The functions of [dockerman.py]                                 *)
(* ================================================================== *)

(** [run_docker_command(command)] *)
Definition run_docker_command (command : string) : M (string * string) :=
  logging DEBUG ("Executing command: " ++ command) ;;
  r <- shell command ;;
  match r with
  | Exited stdout stderr returncode =>
      (if negb (returncode =? 0)%Z
       then logging ERROR ("Command failed: " ++ command ++ Py.nl
                           ++ "Error: " ++ Py.strip stderr)
       else logging INFO ("Command succeeded: " ++ command)) ;;
      ret (stdout, stderr)
  | Raised e =>
      logging ERROR ("Exception while executing command: " ++ command ++ Py.nl
                     ++ "Error: " ++ e) ;;
      ret (EmptyString, "Error: " ++ e)
  end.

(** [is_docker_running()]: [subprocess.run] is called without [check=True],
    so only a launch that raises reaches the [except] branch. *)
Definition is_docker_running : M bool :=
  r <- shell "docker info" ;;
  match r with
  | Exited _ _ _ => logging DEBUG "Docker is running." ;; ret true
  | Raised _ => logging DEBUG "Docker is not running." ;; ret false
  end.

(** [execute_command(command, output_box)] *)
Definition execute_command (command : string) : M unit :=
  '(stdout, stderr) <- run_docker_command command ;;
  output_box_insert ("$ " ++ command ++ Py.nl) ;;
  (if Py.truthy stdout then output_box_insert (stdout ++ Py.nl) else ret tt) ;;
  (if Py.truthy stderr then output_box_insert ("Error: " ++ stderr ++ Py.nl)
   else ret tt) ;;
  if Py.truthy stderr
  then logging ERROR ("Command '" ++ command ++ "' failed with error: "
                      ++ Py.strip stderr)
  else logging INFO ("Command '" ++ command ++ "' executed successfully.").

(** [validate_docker_id(docker_id)] *)
Definition validate_docker_id (docker_id : string) : M bool :=
  let is_valid := docker_id_is_valid docker_id in
  logging DEBUG ("Validating Docker ID '" ++ docker_id ++ "': "
                 ++ (if is_valid then "Valid" else "Invalid")) ;;
  ret is_valid.

(** [selected_item()]; [None] stands for the pair [(None, None)]. *)
Definition selected_item : M (option (string * string)) :=
  selected <- tree_focus ;;
  match selected with
  | None =>
      messagebox ShowWarning "No Selection" "Please select an item from the list." ;;
      ret None
  | Some item =>
      let item_id := text item in
      let item_type := type_of item in
      ok <- validate_docker_id item_id ;;
      if negb ok && negb (item_type =? "project")
      then messagebox ShowError "Invalid ID"
             ("The selected " ++ item_type ++ " ID '" ++ item_id ++ "' is invalid.") ;;
           ret None
      else logging DEBUG ("Selected item - ID: " ++ item_id ++ ", Type: " ++ item_type) ;;
           ret (Some (item_id, item_type))
  end.

(** [run_with_progress(operation_func, *args)]: the operation runs in a
    thread of its own (the progress dialog is presentation). *)
Definition run_with_progress (j : job) : M unit := thread_start j.

(** [update_docker_status()]: one turn of its [while True] loop. *)
Definition update_docker_status_tick : M unit :=
  status <- is_docker_running ;;
  if status
  then status_config "green" "Docker Status: Running"
  else status_config "red" "Docker Status: Not Running".

(** The first [n] turns of the loop, which has no exit. *)
Fixpoint update_docker_status (n : nat) : M unit :=
  match n with
  | O => ret tt
  | S n' => update_docker_status_tick ;; update_docker_status n'
  end.

(** [get_container_size(container_id)] *)
Definition get_container_size (container_id : string) : M string :=
  '(size_output, stderr) <-
     run_docker_command ("docker ps -s -a --filter id=" ++ container_id
                         ++ " --format '{{.Size}}'") ;;
  if Py.truthy stderr || negb (Py.truthy (Py.strip size_output))
  then logging ERROR ("Failed to get size for container '" ++ container_id
                      ++ "': " ++ Py.strip stderr) ;;
       ret "N/A"
  else ret (Py.strip size_output).

(** The dict [stats]: the latest binding of a key is first. *)
Definition stats_dict : Type := list (string * (string * string)).

Fixpoint stats_get (stats : stats_dict) (cid : string)
         (default : string * string) : string * string :=
  match stats with
  | [] => default
  | (k, v) :: rest => if k =? cid then v else stats_get rest cid default
  end.

(** The loop that fills [stats] from the lines of [docker stats]. *)
Fixpoint stats_of_lines (lines : list string) (stats : stats_dict) : stats_dict :=
  match lines with
  | [] => stats
  | line :: rest =>
      match Py.split "|" line with
      | [cid; cpu; mem] => stats_of_lines rest ((cid, (cpu, mem)) :: stats)
      | _ => stats_of_lines rest stats
      end
  end.

Definition cmd_stats : string :=
  "docker stats --no-stream --format " ++ Py.dq
  ++ "{{.Container}}|{{.CPUPerc}}|{{.MemUsage}}" ++ Py.dq.

Definition cmd_containers : string :=
  "docker ps -a --format " ++ Py.dq
  ++ "{{.ID}}|{{.Image}}|{{.Command}}|{{.CreatedAt}}|{{.Status}}|{{.Names}}"
  ++ Py.dq.

Definition cmd_images : string :=
  "docker images --format " ++ Py.dq
  ++ "{{.Repository}}|{{.Tag}}|{{.ID}}|{{.CreatedSince}}|{{.Size}}" ++ Py.dq.

Definition cmd_networks : string :=
  "docker network ls --format " ++ Py.dq
  ++ "{{.ID}}|{{.Name}}|{{.Driver}}|{{.Scope}}" ++ Py.dq.

Definition cmd_names : string :=
  "docker ps -a --format " ++ Py.dq ++ "{{.Names}}" ++ Py.dq.

(** The container item that the listing loop inserts. *)
Definition container_row (container_id name image command_str created_at : string)
           (is_running : bool) (cpu mem size : string) : row :=
  mkRow container_id "container"
        [name; if is_running then "Running" else "Stopped"; image;
         command_str; created_at; cpu; mem; size]
        [if is_running then "running" else "stopped"].

Definition image_row (image_id full_image_name created_since size : string) : row :=
  mkRow image_id "image"
        ["-"; full_image_name; "-"; created_since; "-"; "-"; size]
        ["image"].

Definition network_row (network_id name driver scope : string) : row :=
  mkRow network_id "network"
        ["-"; name; driver; scope; "-"; "-"; "-"]
        ["network"].

(** Body of [for line in lines:] in [list_docker_items]; [ret tt] where the
    source says [continue]. *)
Definition list_line (item_type : string) (stats : stats_dict) (line : string) : M unit :=
  if negb (Py.truthy line) then ret tt
  else
    let parts := Py.split "|" line in
    if item_type =? "container" then
      if (length parts <? 6)%nat then ret tt
      else
        let container_id := Py.item parts 0 in
        let image := Py.item parts 1 in
        let command_str := Py.strip_char Py.DQ (Py.item parts 2) in
        let created_at := Py.item parts 3 in
        let status_full := Py.item parts 4 in
        let name := Py.item parts 5 in
        let is_running := Py.contains "Up" status_full in
        let '(cpu, mem) := stats_get stats container_id ("N/A", "N/A") in
        size <- get_container_size container_id ;;
        tree_insert (container_row container_id name image command_str
                                   created_at is_running cpu mem size)
    else if item_type =? "image" then
      if (length parts <? 5)%nat then ret tt
      else
        let repository := Py.item parts 0 in
        let tag := Py.item parts 1 in
        let image_id := Py.item parts 2 in
        let created_since := Py.item parts 3 in
        let size := Py.item parts 4 in
        let full_image_name := repository ++ ":" ++ tag in
        tree_insert (image_row image_id full_image_name created_since size)
    else if item_type =? "network" then
      if (length parts <? 4)%nat then ret tt
      else
        let network_id := Py.item parts 0 in
        let name := Py.item parts 1 in
        let driver := Py.item parts 2 in
        let scope := Py.item parts 3 in
        tree_insert (network_row network_id name driver scope)
    else ret tt.

(** [task()] inside [list_docker_items(command, type_of)] *)
Definition task (command item_type : string) : M unit :=
  '(output, stderr) <- run_docker_command command ;;
  if Py.truthy stderr
  then execute_command ("# Error listing " ++ item_type ++ "s: " ++ stderr)
  else
    tree_clear_except_projects ;;
    stats <- (if item_type =? "container"
              then '(stats_output, _) <- run_docker_command cmd_stats ;;
                   ret (stats_of_lines (Py.split Py.NL (Py.strip stats_output)) [])
              else ret []) ;;
    let lines := Py.split Py.NL (Py.strip output) in
    if match lines with
       | [] => true
       | [l] => negb (Py.truthy l)
       | _ => false
       end
    then ret tt
    else for_each (list_line item_type stats) lines.

(** [list_docker_items(command, type_of)] *)
Definition list_docker_items (command item_type : string) : M unit :=
  thread_start (Task command item_type).

Definition refresh_containers : M unit := list_docker_items cmd_containers "container".
Definition refresh_images : M unit := list_docker_items cmd_images "image".
Definition refresh_networks : M unit := list_docker_items cmd_networks "network".

(** [rebuild_container_thread(container_id, image_name)] *)
Definition rebuild_commands (container_id image_name : string) : list string :=
  ["docker stop " ++ container_id;
   "docker rm " ++ container_id;
   "docker run -d --name " ++ container_id ++ " " ++ image_name].

Definition rebuild_container_thread (container_id image_name : string) : M unit :=
  let commands := rebuild_commands container_id image_name in
  for_each execute_command commands ;;
  refresh_containers ;;
  refresh_images.

(** [copy_container_thread(container_id, new_container_name)] *)
Definition copy_container_thread (container_id new_container_name : string) : M unit :=
  let image_name := "backup_" ++ container_id in
  execute_command ("docker commit " ++ container_id ++ " " ++ image_name) ;;
  execute_command ("docker create --name " ++ new_container_name ++ " " ++ image_name) ;;
  refresh_containers ;;
  refresh_images ;;
  messagebox ShowInfo "Copy Completed"
    ("Container '" ++ container_id ++ "' has been copied to '"
     ++ new_container_name ++ "' without starting it.") ;;
  logging INFO ("Container '" ++ container_id ++ "' copied to '"
                ++ new_container_name ++ "' as image '" ++ image_name ++ "'.").

(** [copy_container()]; [answer] is what [simpledialog.askstring] returns
    ([None] when the operator cancels). *)
Definition copy_container (answer : option string) : M unit :=
  sel <- selected_item ;;
  match sel with
  | Some (container_id, _) =>
      if Py.truthy container_id then
        match answer with
        | Some new_container_name =>
            if Py.truthy new_container_name then
              if negb (Py.truthy (Py.strip new_container_name))
              then messagebox ShowError "Invalid Input"
                              "Container name cannot be empty."
              else
                '(existing_containers, _) <- run_docker_command cmd_names ;;
                let existing_names :=
                    Py.split Py.NL (Py.strip existing_containers) in
                if Py.str_in new_container_name existing_names
                then messagebox ShowError "Name Conflict"
                       ("A container with the name '" ++ new_container_name
                        ++ "' already exists.")
                else run_with_progress
                       (CopyContainerThread container_id new_container_name)
            else messagebox ShowWarning "Input Required"
                            "Copy canceled. No container name provided."
        | None => messagebox ShowWarning "Input Required"
                             "Copy canceled. No container name provided."
        end
      else ret tt
  | None => ret tt
  end.

(** What a started thread runs. *)
Definition run_job (j : job) : M unit :=
  match j with
  | Task command item_type => task command item_type
  | RebuildContainerThread container_id image_name =>
      rebuild_container_thread container_id image_name
  | CopyContainerThread container_id new_container_name =>
      copy_container_thread container_id new_container_name
  end.

(** *** The listing loops of [search_items]

    The bodies of the three loops over the container, image and network
    listings in [search_items].  Each unpacks [parts] into as many names as
    the schema has fields, which raises [ValueError] on a longer line. *)
Inductive completion : Type := Completed | RaisedValueError.

Definition search_container_line (query : string) (stats : stats_dict)
           (line : string) : M completion :=
  if negb (Py.truthy line) || negb (Py.contains query (Py.lower line))
  then ret Completed
  else
    let parts := Py.split "|" line in
    if (length parts <? 6)%nat then ret Completed
    else match parts with
         | [container_id; image; command_str; created_at; status_full; name] =>
             ok <- validate_docker_id container_id ;;
             if negb ok then ret Completed
             else
               let is_running := Py.contains "Up" status_full in
               let '(cpu, mem) := stats_get stats container_id ("N/A", "N/A") in
               size <- get_container_size container_id ;;
               tree_insert (container_row container_id name image command_str
                                          created_at is_running cpu mem size) ;;
               ret Completed
         | _ => ret RaisedValueError
         end.

Definition search_image_line (query : string) (line : string) : M completion :=
  if negb (Py.truthy line) || negb (Py.contains query (Py.lower line))
  then ret Completed
  else
    let parts := Py.split "|" line in
    if (length parts <? 5)%nat then ret Completed
    else match parts with
         | [repository; tag; image_id; created_since; size] =>
             ok <- validate_docker_id image_id ;;
             if negb ok then ret Completed
             else
               let full_image_name := repository ++ ":" ++ tag in
               tree_insert (image_row image_id full_image_name created_since size) ;;
               ret Completed
         | _ => ret RaisedValueError
         end.

Definition search_network_line (query : string) (line : string) : M completion :=
  if negb (Py.truthy line) || negb (Py.contains query (Py.lower line))
  then ret Completed
  else
    let parts := Py.split "|" line in
    if (length parts <? 4)%nat then ret Completed
    else match parts with
         | [network_id; name; driver; scope] =>
             ok <- validate_docker_id network_id ;;
             if negb ok then ret Completed
             else
               tree_insert (network_row network_id name driver scope) ;;
               ret Completed
         | _ => ret RaisedValueError
         end.

(* ================================================================== *)
(** ** Threads that share the Treeview                                 *)
(* ================================================================== *)

(** *** Two refreshes at the same time

    [task] runs in a thread of its own, and nothing in the program
    serialises two tasks: there is no lock and no queue.  Each call of a
    Treeview method is one step, and the steps of two tasks reach the
    Treeview in any order that keeps the order of each task.  The clearing
    loop is not one step: it is one call of [tree.get_children()], whose
    tuple of item identifiers is taken once, then for each identifier a call
    of [tree.item] and, for an item that is not a project, a call of
    [tree.delete].  Both raise [TclError] for an identifier whose item is
    gone, and nothing catches it: the thread ends there. *)

Module Treeview.

(** An item with the identifier that Tk gave it. *)
Record entry : Type := mkEntry { iid : nat; record : row }.

(** The root children in order, and the counter from which Tk names the
    next item ([I001], [I002], ...): no identifier is given twice. *)
Record t : Type := mk { children : list entry; next_iid : nat }.

Definition has (i : nat) (x : entry) : bool := (iid x =? i)%nat.

(** [tree.get_children()] *)
Definition get_children (tv : t) : list nat := map iid (children tv).

(** [tree.item(i)]; [None] stands for [TclError]. *)
Definition item (tv : t) (i : nat) : option row :=
  option_map record (find (has i) (children tv)).

(** [tree.delete(i)]; [None] stands for [TclError]. *)
Definition delete (tv : t) (i : nat) : option t :=
  if existsb (has i) (children tv)
  then Some (mk (filter (fun x => negb (has i x)) (children tv)) (next_iid tv))
  else None.

(** [tree.insert("", "end", ...)] *)
Definition insert (tv : t) (r : row) : t :=
  mk (children tv ++ [mkEntry (next_iid tv) r]) (S (next_iid tv)).

(** The items shown, in order. *)
Definition records (tv : t) : list row := map record (children tv).

(** What Tk maintains: identifiers are distinct and below the counter. *)
Definition well_formed (tv : t) : Prop :=
  NoDup (map iid (children tv)) /\
  Forall (fun x => iid x < next_iid tv) (children tv).

End Treeview.

(** Where a task whose listing returned an empty stderr stands in its
    Treeview calls; [rows] are the items that its lines give (the commands
    it runs in between, [docker stats] and [get_container_size], do not
    touch the Treeview). *)
Inductive thread : Type :=
| AtGetChildren (rows : list row)
    (* about to call [tree.get_children()] *)
| AtItem (pending : list nat) (rows : list row)
    (* in the clearing loop, about to call [tree.item] on the first pending
       identifier; the loop is over when none is pending *)
| AtDelete (i : nat) (pending : list nat) (rows : list row)
    (* about to call [tree.delete(i)] *)
| AtInsert (rows : list row)
    (* about to call [tree.insert] for the first of [rows]; the task has
       returned when none is left *)
| TclError.
    (* ended by the exception *)

(** One step of a task: one Treeview call, or leaving the clearing loop
    when no identifier is pending, which changes nothing in the Treeview.
    The [tree.tag_configure] calls that end the task change no item. *)
Definition thread_step (th : thread) (tv : Treeview.t) : thread * Treeview.t :=
  match th with
  | AtGetChildren rows => (AtItem (Treeview.get_children tv) rows, tv)
  | AtItem [] rows => (AtInsert rows, tv)
  | AtItem (i :: pending) rows =>
      match Treeview.item tv i with
      | None => (TclError, tv)
      | Some r => if is_project r then (AtItem pending rows, tv)
                  else (AtDelete i pending rows, tv)
      end
  | AtDelete i pending rows =>
      match Treeview.delete tv i with
      | None => (TclError, tv)
      | Some tv' => (AtItem pending rows, tv')
      end
  | AtInsert [] => (AtInsert [], tv)
  | AtInsert (r :: rows) => (AtInsert rows, Treeview.insert tv r)
  | TclError => (TclError, tv)
  end.

Definition ended (th : thread) : bool :=
  match th with
  | AtInsert [] | TclError => true
  | _ => false
  end.

Inductive thread_id : Type := First | Second.

(** Two tasks and the Treeview they share. *)
Record threads : Type := mkThreads {
  view : Treeview.t;
  first : thread;
  second : thread
}.

Definition step (c : threads) (who : thread_id) : threads :=
  match who with
  | First => let (th, tv) := thread_step (first c) (view c) in
             mkThreads tv th (second c)
  | Second => let (th, tv) := thread_step (second c) (view c) in
              mkThreads tv (first c) th
  end.

(** The run in which the tasks take their steps in the order [sched]. *)
Definition run_threads (sched : list thread_id) (c : threads) : threads :=
  fold_left step sched c.

(** Both tasks are past their listing command, with the items [A] and [B]. *)
Definition start (tv : Treeview.t) (A B : list row) : threads :=
  mkThreads tv (AtGetChildren A) (AtGetChildren B).

(** A bound on the steps that a task has yet to take. *)
Definition steps_left (th : thread) (tv : Treeview.t) : nat :=
  match th with
  | AtGetChildren rows => 2 * length (Treeview.children tv) + length rows + 2
  | AtItem pending rows => 2 * length pending + length rows + 1
  | AtDelete _ pending rows => 2 * length pending + length rows + 2
  | AtInsert rows => length rows
  | TclError => 0
  end.

(** [tail] is what is left of [l] after some first elements. *)
Definition is_tail {X : Type} (tail l : list X) : Prop :=
  exists front, l = (front ++ tail)%list.

(** [interleaving l1 l2 l]: [l] holds the elements of [l1] and of [l2], each
    list in its order. *)
Inductive interleaving {A : Type} : list A -> list A -> list A -> Prop :=
| il_nil : interleaving [] [] []
| il_left x l1 l2 l : interleaving l1 l2 l -> interleaving (x :: l1) l2 (x :: l)
| il_right x l1 l2 l : interleaving l1 l2 l -> interleaving l1 (x :: l2) (x :: l).

(** *** The invariant of two running tasks

    What is known of a task beyond its state: the items of its snapshot that
    it has yet to visit and that the other task went past ([lag]), the rows
    it inserted that a later snapshot of the other task covers ([pre]), and
    the rows it inserted since ([put]). *)
Record trace : Type := mkTrace {
  lag : list Treeview.entry;
  pre : list row;
  put : list row
}.

Definition is_project_entry (x : Treeview.entry) : bool := is_project (Treeview.record x).

Definition clearing (th : thread) : bool :=
  match th with
  | AtItem _ _ | AtDelete _ _ _ => true
  | _ => false
  end.

Definition thread_inv (rows : list row) (done common : list Treeview.entry)
           (g : trace) (th : thread) : Prop :=
  match th with
  | AtGetChildren r => r = rows /\ pre g = [] /\ put g = []
  | AtItem p r =>
      r = rows /\ pre g = [] /\ put g = [] /\
      p = map Treeview.iid (lag g ++ common) /\ incl (lag g) done
  | AtDelete i p r =>
      r = rows /\ pre g = [] /\ put g = [] /\
      i :: p = map Treeview.iid (lag g ++ common) /\ incl (lag g) done /\
      (forall x, hd_error (lag g ++ common) = Some x -> is_project_entry x = false)
  | AtInsert r => rows = (pre g ++ put g ++ r)%list
  | TclError => put g = []
  end.

(** A task that will show all its rows. *)
Definition sound (g : trace) (th : thread) : Prop :=
  pre g = [] /\
  match th with
  | AtGetChildren _ | AtInsert _ => True
  | AtItem _ _ | AtDelete _ _ _ => Forall (fun x => is_project_entry x = true) (lag g)
  | TclError => False
  end.

(** A task that is clearing ahead of the other. *)
Definition leads (g : trace) (th : thread) : Prop :=
  clearing th = true /\ lag g = [].

(** A task whose snapshot, when it takes it, will hold every item shown. *)
Definition fresh_snapshot (th other : thread) : Prop :=
  (exists r, th = AtGetChildren r) /\ clearing other = false.

(** The invariant.  The items of the latest snapshot that some clearing
    loop went past are [done]: the projects among them are still shown, the
    others are gone.  The items that no loop has reached are [common], and
    the items inserted since that snapshot are [fresh].  [P] are the Project
    items of the start, [rx] and [ry] the rows of the two tasks. *)
Record inv (P rx ry : list row) (done common fresh : list Treeview.entry)
       (gx gy : trace) (tv : Treeview.t) (tx ty : thread) : Prop := mkInv {
  inv_children : Treeview.children tv = (filter is_project_entry done ++ common ++ fresh)%list;
  inv_nodup : NoDup (map Treeview.iid (done ++ common ++ fresh));
  inv_bound : Forall (fun x => Treeview.iid x < Treeview.next_iid tv) (done ++ common ++ fresh);
  inv_projects : map Treeview.record (filter is_project_entry (done ++ common)) = P;
  inv_fresh : Forall (fun x => is_project_entry x = false) fresh;
  inv_x : thread_inv rx done common gx tx;
  inv_y : thread_inv ry done common gy ty;
  inv_merge : interleaving (put gx) (put gy) (map Treeview.record fresh);
  inv_sound : sound gx tx \/ sound gy ty;
  inv_lead : common <> [] ->
             leads gx tx \/ leads gy ty \/ fresh_snapshot tx ty \/ fresh_snapshot ty tx
}.

(** [alone who]: the other task has ended, none of the rows it inserted is
    left outside the last snapshot, and the task [who] will show all its
    rows. *)
Definition alone (who : thread_id) (ga gb : trace) (c : threads) : Prop :=
  match who with
  | First => ended (second c) = true /\ put gb = [] /\ sound ga (first c)
  | Second => ended (first c) = true /\ put ga = [] /\ sound gb (second c)
  end.

(** The items of the runtime kinds that the Treeview shows. *)
Definition runtime_rows (t : list row) : list row :=
  filter (fun r => negb (is_project r)) t.

(** Something was reported between two states: a log record, text in the
    output box, or a message box. *)
Definition reported (s s' : State) : Prop :=
  log s' <> log s \/ output_box s' <> output_box s \/ boxes s' <> boxes s.

(** *** Concrete runtimes and states used in examples *)

(** A runtime that answers every command line with the same result. *)
Definition const_runtime (r : popen_result) : Runtime := fun _ _ => r.

(** A runtime given by a table of answers; other commands succeed silently. *)
Fixpoint table_runtime (tbl : list (string * popen_result)) : Runtime :=
  fun history command =>
    match tbl with
    | [] => Exited EmptyString EmptyString 0
    | (c, r) :: tbl' =>
        if c =? command then r else table_runtime tbl' history command
    end.

Definition init_state (rt : Runtime) (t : list row) (f : option row) : State :=
  mkState rt [] [] t f EmptyString "grey" "Docker Status: Checking..." [] [].

Definition project_row (project_name : string) : row :=
  mkRow project_name "project" ["-"; "-"; "-"; "-"; "-"; "-"; "-"; "-"] ["project"].

Definition web1_line : string :=
  "abc123456789|nginx:latest|" ++ Py.dq ++ "nginx -g daemon off;" ++ Py.dq
  ++ "|2024-01-01|Up 3 hours|web1".

Definition web1_row : row :=
  container_row "abc123456789" "web1" "nginx:latest" "nginx -g daemon off;"
                "2024-01-01" true "2.3%" "15MiB / 1GiB" "N/A".

Definition nginx_image_row : row :=
  image_row "0123456789ab" "nginx:latest" "2 weeks ago" "187MB".

(** *** Summaries used to state what a run changed *)

(** The pair [(stdout, stderr)] that [run_docker_command] returns for a
    result of the launch. *)
Definition streams_of (r : popen_result) : string * string :=
  match r with
  | Exited stdout stderr _ => (stdout, stderr)
  | Raised e => (EmptyString, "Error: " ++ e)
  end.

(** A state after more commands were run, more records were logged and more
    text was put in the output box, with everything else as it was. *)
Definition touch (cmds : list string) (lg : list (level * string))
           (txt : string) (s : State) : State :=
  mkState (runtime s) (issued s ++ cmds) (log s ++ lg) (tree s) (focus s)
          (output_box s ++ txt) (status_indicator s) (status_label s)
          (boxes s) (started s).

(** A state after a listing loop ran: [rows] were inserted at the end of
    the Treeview, commands were run and records were logged. *)
Definition grow (rows : list row) (cmds : list string)
           (lg : list (level * string)) (s : State) : State :=
  set_tree (tree s ++ rows) (touch cmds lg EmptyString s).

(** The command line of [get_container_size]. *)
Definition cmd_size (container_id : string) : string :=
  "docker ps -s -a --filter id=" ++ container_id ++ " --format '{{.Size}}'".


(** The running-state column of a container item. *)
Definition running_state (r : row) : string := nth 1 (columns r) EmptyString.

(** A state with a stored image and a project, over a runtime that answers
    every command with success and no output. *)
Definition quiet_runtime : Runtime := const_runtime (Exited EmptyString EmptyString 0).


(** A runtime where the daemon is down: every command fails on stderr. *)
Definition daemon_down : Runtime :=
  const_runtime (Exited EmptyString "Cannot connect to the Docker daemon" 1).

Definition daemon_down_state : State :=
  init_state daemon_down [web1_row; nginx_image_row; project_row "demo"] None.

(** A runtime whose container listing has one line with the id [abc]. *)
Definition short_id_runtime : Runtime :=
  table_runtime
    [(cmd_containers, Exited ("abc|nginx|sh|2024-01-01|Up 1 hour|web" ++ Py.nl)
                             EmptyString 0)].

Definition short_id_row : row :=
  container_row "abc" "web" "nginx" "sh" "2024-01-01" true "N/A" "N/A" "N/A".

(** A second container, and a state whose focused item is [web1]. *)
Definition db1_row : row :=
  container_row "def123456789" "db1" "postgres:16" "postgres"
                "2024-01-02" false "N/A" "N/A" "N/A".

Definition names_runtime : Runtime :=
  table_runtime [(cmd_names, Exited ("web" ++ Py.nl ++ "db" ++ Py.nl) EmptyString 0)].

Definition web_db_state : State :=
  init_state names_runtime [web1_row] (Some web1_row).

(** A third container, and a Treeview that shows [web1] and a project. *)
Definition cache1_row : row :=
  container_row "0a1b2c3d4e5f" "cache1" "redis:7" "redis-server"
                "2024-01-03" true "N/A" "N/A" "N/A".

Definition stored_view : Treeview.t :=
  Treeview.mk [Treeview.mkEntry 1 web1_row; Treeview.mkEntry 2 (project_row "demo")] 3.

(** The first task clears and inserts its first item; the second task takes
    its snapshot then, and deletes that item while the first inserts its
    second one. *)
Definition overlapped_schedule : list thread_id :=
  [First; First; First; First; First; First;
   Second; Second; Second; Second;
   First;
   Second; Second].

(** Both tasks take their snapshot before either deletes; the first deletes
    [web1], and the second then asks for the item that is gone. *)
Definition racing_schedule : list thread_id :=
  [First; Second; First; First; Second;
   First; First; First; First].

(** A runtime with the container [web1] and its live statistics. *)
Definition web1_runtime : Runtime :=
  table_runtime
    [(cmd_containers, Exited (web1_line ++ Py.nl) EmptyString 0);
     (cmd_stats, Exited ("abc123456789|2.3%|15MiB / 1GiB" ++ Py.nl) EmptyString 0)].



(** *** What the listing loop stores for a line *)














(** A state with a stale container, an image and a project over the runtime
    that lists [web1]. *)
Definition stale_state : State :=
  init_state web1_runtime [db1_row; nginx_image_row; project_row "demo"] None.

(* ================================================================== *)
(** ** Facts about the string primitives                               *)
(* ================================================================== *)

Section StringFacts.

Lemma append_empty_r (s : string) : s ++ EmptyString = s.
Proof. induction s as [|c s IH]; simpl; [reflexivity | now rewrite IH]. Qed.

Lemma append_assoc (a b c : string) : (a ++ b) ++ c = a ++ (b ++ c).
Proof. induction a as [|x a IH]; simpl; [reflexivity | now rewrite IH]. Qed.

Lemma prefix_spec (p s : string) :
  String.prefix p s = true <-> exists t, s = p ++ t.
Proof.
  revert s; induction p as [|a p IH]; intros s.
  - split; [intros _; now exists s | intros _; now destruct s].
  - destruct s as [|b s]; simpl.
    + split; [discriminate | intros [t Ht]; discriminate].
    + destruct (ascii_dec a b) as [->|Hne].
      * rewrite IH. split; intros [t Ht]; exists t.
        -- now rewrite Ht.
        -- now injection Ht.
      * split; [discriminate | intros [t Ht]; injection Ht; congruence].
Qed.

(** [sub in s] holds exactly when [s] has [sub] as a contiguous part. *)
Lemma contains_spec (sub s : string) :
  Py.contains sub s = true <-> exists pre post, s = pre ++ sub ++ post.
Proof.
  split.
  - induction s as [|c s IH]; cbn [Py.contains].
    + destruct (String.prefix sub EmptyString) eqn:E; [|discriminate].
      intros _. apply prefix_spec in E as [t Ht]. now exists EmptyString, t.
    + destruct (String.prefix sub (String c s)) eqn:E.
      * intros _. apply prefix_spec in E as [t Ht]. now exists EmptyString, t.
      * intros H. destruct (IH H) as (pre & post & ->).
        now exists (String c pre), post.
  - intros (pre & post & ->). induction pre as [|c pre IH].
    + assert (E : String.prefix sub (sub ++ post) = true)
        by (apply prefix_spec; now exists post).
      change (EmptyString ++ sub ++ post) with (sub ++ post).
      destruct (sub ++ post); cbn [Py.contains]; now rewrite E.
    + change (String c pre ++ sub ++ post) with (String c (pre ++ sub ++ post)).
      cbn [Py.contains]. rewrite IH.
      now destruct (String.prefix sub (String c (pre ++ sub ++ post))).
Qed.

Lemma split_nonempty (sep : ascii) (s : string) : Py.split sep s <> [].
Proof.
  destruct s as [|c s]; simpl; [discriminate|].
  destruct (Ascii.eqb c sep); [discriminate|].
  destruct (Py.split sep s); discriminate.
Qed.

(** A string without the separator is one field. *)
Lemma split_no_sep (sep : ascii) (f : string) :
  Py.all_chars (fun c => negb (Ascii.eqb c sep)) f = true ->
  Py.split sep f = [f].
Proof.
  induction f as [|c f IH]; simpl; [reflexivity|].
  intros H. apply andb_prop in H as [Hc Hf].
  apply negb_true_iff in Hc. rewrite Hc, (IH Hf). reflexivity.
Qed.

Lemma split_field_cons (sep : ascii) (f rest : string) :
  Py.all_chars (fun c => negb (Ascii.eqb c sep)) f = true ->
  Py.split sep (f ++ String sep rest) = f :: Py.split sep rest.
Proof.
  induction f as [|c f IH]; simpl.
  - intros _. now rewrite Ascii.eqb_refl.
  - intros H. apply andb_prop in H as [Hc Hf].
    apply negb_true_iff in Hc. rewrite Hc, (IH Hf). reflexivity.
Qed.

(** Splitting undoes joining, for fields that are free of the separator. *)
Lemma split_join (sep : ascii) (fields : list string) :
  fields <> [] ->
  Forall (fun f => Py.all_chars (fun c => negb (Ascii.eqb c sep)) f = true) fields ->
  Py.split sep (Py.join sep fields) = fields.
Proof.
  induction fields as [|f rest IH]; [congruence|].
  intros _ HF. inversion HF as [|? ? Hf Hrest]; subst.
  destruct rest as [|g rest].
  - simpl. now apply split_no_sep.
  - change (Py.join sep (f :: g :: rest))
      with (f ++ String sep (Py.join sep (g :: rest))).
    rewrite split_field_cons by assumption.
    rewrite IH; [reflexivity | discriminate | assumption].
Qed.

End StringFacts.

(* ================================================================== *)
(** ** The identifier pattern                                          *)
(* ================================================================== *)

Section Identifier.

Lemma repeat_class_spec (cls : ascii -> bool) (k : bool -> string -> bool) :
  (forall b1 b2 r, k b1 r = k b2 r) ->
  forall s need b,
    Re.repeat_class cls need k b s = true <->
    exists body tail,
      s = body ++ tail /\ Py.all_chars cls body = true /\
      need <= String.length body /\ k b tail = true.
Proof.
  intros Hk s. induction s as [|c s IH]; intros need b; simpl.
  - rewrite andb_true_iff, Nat.eqb_eq. split.
    + intros [-> H]. exists EmptyString, EmptyString. simpl. auto.
    + intros (body & tail & E & _ & Hn & H).
      destruct body; [|discriminate]. simpl in *. subst tail. split; [lia | exact H].
  - split.
    + intros H.
      assert (Hstop : (need =? 0)%nat && k b (String c s) = true ->
                      exists body tail, String c s = body ++ tail /\
                        Py.all_chars cls body = true /\
                        need <= String.length body /\ k b tail = true).
      { rewrite andb_true_iff, Nat.eqb_eq. intros [-> Hk0].
        exists EmptyString, (String c s). simpl. auto. }
      destruct (cls c) eqn:Ec; [|now apply Hstop].
      apply orb_prop in H as [H|H]; [|now apply Hstop].
      apply IH in H as (body & tail & -> & Hall & Hn & Ht).
      exists (String c body), tail. simpl. rewrite Ec, Hall.
      repeat split; [lia | now rewrite (Hk b false)].
    + intros (body & tail & E & Hall & Hn & Ht).
      destruct body as [|c' body]; simpl in *.
      * subst tail. assert (need = 0) as -> by lia. simpl. rewrite Ht.
        destruct (cls c); [apply orb_true_r | reflexivity].
      * injection E as <- ->. apply andb_prop in Hall as [Ec Hall].
        rewrite Ec. apply orb_true_intro. left. apply IH.
        exists body, tail. repeat split; [assumption | lia | now rewrite (Hk false b)].
Qed.

Lemma at_eol_spec (r : string) :
  Re.at_eol r = true <-> r = EmptyString \/ r = Py.nl.
Proof.
  destruct r as [|c [|d r]]; simpl.
  - intuition.
  - rewrite Ascii.eqb_eq. unfold Py.nl, Py.str1.
    split; [intros ->; now right | intros [H|H]; [discriminate | now injection H]].
  - split; [discriminate | intros [H|H]; discriminate].
Qed.

(** What the pattern accepts: twelve or more characters of the class,
    alone or followed by one newline. *)
Lemma docker_id_is_valid_spec (s : string) :
  docker_id_is_valid s = true <->
  exists body,
    Py.all_chars Re.alnum body = true /\ 12 <= String.length body /\
    (s = body \/ s = body ++ Py.nl).
Proof.
  unfold docker_id_is_valid, Re.matches, docker_id_pattern.
  cbn [Re.match_from]. cbn [andb].
  rewrite repeat_class_spec by reflexivity.
  split.
  - intros (body & tail & -> & Hall & Hn & Ht).
    rewrite andb_true_r in Ht. apply at_eol_spec in Ht as [->| ->].
    + exists body. rewrite append_empty_r. auto.
    + exists body. auto.
  - intros (body & Hall & Hn & [-> | ->]).
    + exists body, EmptyString. rewrite append_empty_r. auto.
    + exists body, Py.nl. auto.
Qed.

Lemma all_chars_append (p : ascii -> bool) (a b : string) :
  Py.all_chars p (a ++ b) = Py.all_chars p a && Py.all_chars p b.
Proof.
  induction a as [|c a IH]; simpl; [reflexivity|].
  now rewrite IH, andb_assoc.
Qed.

(** C10.  The identifier validator accepts every string of twelve or more
    alphanumeric characters and also every such string followed by one
    newline character, because [$] matches before a final newline; so an
    accepted string need not consist of alphanumeric characters only. *)
Theorem validator_accepts_trailing_newline (body : string) :
  Py.all_chars Re.alnum body = true ->
  12 <= String.length body ->
  docker_id_is_valid body = true /\
  docker_id_is_valid (body ++ Py.nl) = true /\
  Py.all_chars Re.alnum (body ++ Py.nl) = false.
Proof.
  intros Hall Hn. repeat split.
  - apply docker_id_is_valid_spec. exists body. auto.
  - apply docker_id_is_valid_spec. exists body. auto.
  - rewrite all_chars_append, Hall. reflexivity.
Qed.

Lemma validator_accepts_trailing_newline_witness :
  docker_id_is_valid "abc123def456" = true /\
  docker_id_is_valid ("abc123def456" ++ Py.nl) = true /\
  Py.all_chars Re.alnum ("abc123def456" ++ Py.nl) = false.
Proof.
  apply (validator_accepts_trailing_newline "abc123def456").
  - reflexivity.
  - simpl. lia.
Defined.

(** The three identifiers of the specification's examples. *)
Example valid_abc123def456 : docker_id_is_valid "abc123def456" = true.
Proof. reflexivity. Qed.
Example invalid_with_hyphens : docker_id_is_valid "abc-123-def4" = false.
Proof. reflexivity. Qed.
Example invalid_short1 : docker_id_is_valid "short1" = false.
Proof. reflexivity. Qed.
Example invalid_two_newlines :
  docker_id_is_valid ("abc123def456" ++ Py.nl ++ Py.nl) = false.
Proof. reflexivity. Qed.

End Identifier.

(* ================================================================== *)
(** ** Running commands                                                *)
(* ================================================================== *)

Section Commands.

Lemma exec_bind {A B} (c : M A) (f : A -> M B) (s : State) :
  exec (bind c f) s = exec (f (eval c s)) (exec c s).
Proof. unfold exec, eval, bind. now destruct (c s). Qed.

Lemma run_pair {A} (c : M A) (s : State) : c s = (eval c s, exec c s).
Proof. unfold eval, exec. now destruct (c s). Qed.

Lemma touch_nothing (s : State) : touch [] [] EmptyString s = s.
Proof.
  unfold touch. rewrite !app_nil_r, append_empty_r. now destruct s.
Qed.

Lemma touch_touch c1 l1 t1 c2 l2 t2 (s : State) :
  touch c2 l2 t2 (touch c1 l1 t1 s) = touch (c1 ++ c2) (l1 ++ l2) (t1 ++ t2) s.
Proof.
  unfold touch; cbn. now rewrite !app_assoc, append_assoc.
Qed.

(** What [run_docker_command] returns and changes; an exit status other
    than zero is logged as an error. *)
Lemma run_docker_command_eq_log (command : string) (s : State) :
  exists lg,
    run_docker_command command s =
    (streams_of (runtime s (issued s) command), touch [command] lg EmptyString s)
    /\ (forall out err rc,
           runtime s (issued s) command = Exited out err rc -> rc <> 0%Z ->
           In (ERROR, "Command failed: " ++ command ++ Py.nl
                      ++ "Error: " ++ Py.strip err) lg).
Proof.
  unfold run_docker_command, bind, shell, logging, ret, touch; cbn.
  destruct (runtime s (issued s) command) as [e | out err rc]; cbn.
  - eexists. split; [rewrite <- app_assoc, append_empty_r; reflexivity|].
    intros ? ? ? H; discriminate.
  - destruct (rc =? 0)%Z eqn:Z0; cbn;
      (eexists; split; [rewrite <- app_assoc, append_empty_r; reflexivity|]);
      intros o e r H Hr; injection H as <- <- <-.
    + apply Z.eqb_eq in Z0. contradiction.
    + right. now left.
Qed.

Lemma run_docker_command_eq (command : string) (s : State) :
  exists lg,
    run_docker_command command s =
    (streams_of (runtime s (issued s) command), touch [command] lg EmptyString s).
Proof.
  destruct (run_docker_command_eq_log command s) as (lg & E & _). now exists lg.
Qed.

Lemma eval_run_docker_command (command : string) (s : State) :
  eval (run_docker_command command) s = streams_of (runtime s (issued s) command).
Proof.
  destruct (run_docker_command_eq command s) as [lg E].
  unfold eval. now rewrite E.
Qed.


Lemma get_container_size_eq (container_id : string) (s : State) :
  exists lg,
    exec (get_container_size container_id) s =
    touch [cmd_size container_id] lg EmptyString s.
Proof.
  unfold get_container_size, exec.
  destruct (run_docker_command_eq (cmd_size container_id) s) as [lg E].
  unfold cmd_size in *.
  unfold bind at 1. rewrite E.
  destruct (streams_of _) as [out err].
  destruct (Py.truthy err || negb (Py.truthy (Py.strip out))).
  - unfold bind, logging, ret; cbn. eexists. unfold touch; cbn.
    rewrite <- app_assoc. reflexivity.
  - unfold ret; cbn. now exists lg.
Qed.

End Commands.

(* ================================================================== *)
(** ** The listing loop                                                *)
(* ================================================================== *)

Section Listing.

Ltac state_eq :=
  unfold grow, touch, set_tree, set_focus, set_log, set_issued, set_output_box;
  cbn;
  rewrite <- ?app_assoc, ?append_assoc, ?append_empty_r, ?app_nil_r;
  cbn; reflexivity.

Lemma grow_nothing (s : State) : grow [] [] [] s = s.
Proof.
  unfold grow, touch, set_tree; cbn.
  rewrite !app_nil_r, append_empty_r. now destruct s.
Qed.

Lemma grow_grow r1 c1 l1 r2 c2 l2 (s : State) :
  grow r2 c2 l2 (grow r1 c1 l1 s)
  = grow (r1 ++ r2)%list (c1 ++ c2)%list (l1 ++ l2)%list s.
Proof. state_eq. Qed.

Lemma tree_grow rows cmds lg (s : State) : tree (grow rows cmds lg s) = (tree s ++ rows)%list.
Proof. reflexivity. Qed.

Lemma truthy_of_fields (line : string) :
  2 <= length (Py.split "|" line) -> Py.truthy line = true.
Proof. destruct line; simpl; [lia | reflexivity]. Qed.

(** A container line with six or more fields gives one item. *)
Lemma list_line_container (stats : stats_dict) (line : string) (s : State) :
  6 <= length (Py.split "|" line) ->
  let parts := Py.split "|" line in
  exists lg,
    list_line "container" stats line s =
    (tt, grow [container_row (Py.item parts 0) (Py.item parts 5) (Py.item parts 1)
                  (Py.strip_char Py.DQ (Py.item parts 2)) (Py.item parts 3)
                  (Py.contains "Up" (Py.item parts 4))
                  (fst (stats_get stats (Py.item parts 0) ("N/A", "N/A")))
                  (snd (stats_get stats (Py.item parts 0) ("N/A", "N/A")))
                  (eval (get_container_size (Py.item parts 0)) s)]
              [cmd_size (Py.item parts 0)] lg s).
Proof.
  intros Hlen parts. unfold list_line.
  rewrite truthy_of_fields by lia. cbn [negb]. fold parts.
  change ("container" =? "container") with true. cbv iota.
  destruct (length parts <? 6)%nat eqn:E; [apply Nat.ltb_lt in E; unfold parts in E; lia|].
  destruct (stats_get stats (Py.item parts 0) ("N/A", "N/A")) as [cpu mem]. cbn [fst snd].
  destruct (get_container_size_eq (Py.item parts 0) s) as [lg Hsz].
  exists lg. unfold bind. rewrite (run_pair (get_container_size _) s), Hsz.
  unfold tree_insert. f_equal.
Qed.

Lemma list_line_image (stats : stats_dict) (line : string) (s : State) :
  5 <= length (Py.split "|" line) ->
  let parts := Py.split "|" line in
  list_line "image" stats line s =
  (tt, grow [image_row (Py.item parts 2) (Py.item parts 0 ++ ":" ++ Py.item parts 1)
                       (Py.item parts 3) (Py.item parts 4)] [] [] s).
Proof.
  intros Hlen parts. unfold list_line.
  rewrite truthy_of_fields by lia. cbn [negb]. fold parts.
  change ("image" =? "container") with false.
  change ("image" =? "image") with true. cbv iota.
  destruct (length parts <? 5)%nat eqn:E; [apply Nat.ltb_lt in E; unfold parts in E; lia|].
  unfold tree_insert. f_equal. state_eq.
Qed.

Lemma list_line_network (stats : stats_dict) (line : string) (s : State) :
  4 <= length (Py.split "|" line) ->
  let parts := Py.split "|" line in
  list_line "network" stats line s =
  (tt, grow [network_row (Py.item parts 0) (Py.item parts 1)
                         (Py.item parts 2) (Py.item parts 3)] [] [] s).
Proof.
  intros Hlen parts. unfold list_line.
  rewrite truthy_of_fields by lia. cbn [negb]. fold parts.
  change ("network" =? "container") with false.
  change ("network" =? "image") with false.
  change ("network" =? "network") with true. cbv iota.
  destruct (length parts <? 4)%nat eqn:E; [apply Nat.ltb_lt in E; unfold parts in E; lia|].
  unfold tree_insert. f_equal. state_eq.
Qed.

(** A line with too few fields is passed over: the state does not change. *)
Lemma list_line_short (item_type : string) (stats : stats_dict) (line : string) (s : State) :
  (item_type = "container" /\ length (Py.split "|" line) < 6) \/
  (item_type = "image" /\ length (Py.split "|" line) < 5) \/
  (item_type = "network" /\ length (Py.split "|" line) < 4) ->
  list_line item_type stats line s = (tt, s).
Proof.
  intros H. unfold list_line.
  destruct (Py.truthy line); cbn [negb]; [|reflexivity].
  destruct H as [[-> H] | [[-> H] | [-> H]]]; apply Nat.ltb_lt in H.
  - change ("container" =? "container") with true. cbv iota. now rewrite H.
  - change ("image" =? "container") with false.
    change ("image" =? "image") with true. cbv iota. now rewrite H.
  - change ("network" =? "container") with false.
    change ("network" =? "image") with false.
    change ("network" =? "network") with true. cbv iota. now rewrite H.
Qed.

(** Whatever the line, the loop body inserts at most one item, of the
    listed kind and never a project. *)
Lemma list_line_eq (item_type : string) (stats : stats_dict) (line : string) (s : State) :
  exists rows cmds lg,
    list_line item_type stats line s = (tt, grow rows cmds lg s) /\
    length rows <= 1 /\
    Forall (fun r => type_of r = item_type /\ is_project r = false) rows.
Proof.
  assert (Hskip : exists rows cmds lg,
             (tt, s) = (tt, grow rows cmds lg s) /\ length rows <= 1 /\
             Forall (fun r => type_of r = item_type /\ is_project r = false) rows).
  { exists [], [], []. rewrite grow_nothing. repeat split; [simpl; lia | constructor]. }
  destruct (Py.truthy line) eqn:Ht;
    [|unfold list_line; rewrite Ht; exact Hskip].
  destruct (item_type =? "container") eqn:Kc.
  { apply String.eqb_eq in Kc. subst item_type.
    destruct (le_lt_dec 6 (length (Py.split "|" line))) as [Hl|Hl].
    - destruct (list_line_container stats line s Hl) as [lg E].
      do 3 eexists. split; [exact E|]. split; [simpl; lia|].
      repeat constructor.
    - rewrite list_line_short by auto. exact Hskip. }
  destruct (item_type =? "image") eqn:Ki.
  { apply String.eqb_eq in Ki. subst item_type.
    destruct (le_lt_dec 5 (length (Py.split "|" line))) as [Hl|Hl].
    - do 3 eexists. split; [exact (list_line_image stats line s Hl)|].
      split; [simpl; lia|]. repeat constructor.
    - rewrite list_line_short by auto. exact Hskip. }
  destruct (item_type =? "network") eqn:Kn.
  { apply String.eqb_eq in Kn. subst item_type.
    destruct (le_lt_dec 4 (length (Py.split "|" line))) as [Hl|Hl].
    - do 3 eexists. split; [exact (list_line_network stats line s Hl)|].
      split; [simpl; lia|]. repeat constructor.
    - rewrite list_line_short by auto. exact Hskip. }
  unfold list_line. rewrite Ht, Kc, Ki, Kn. exact Hskip.
Qed.

Lemma for_each_list_line (item_type : string) (stats : stats_dict) (lines : list string) :
  forall s,
  exists rows cmds lg,
    for_each (list_line item_type stats) lines s = (tt, grow rows cmds lg s) /\
    length rows <= length lines /\
    Forall (fun r => type_of r = item_type /\ is_project r = false) rows.
Proof.
  induction lines as [|line lines IH]; intros s.
  - exists [], [], []. rewrite grow_nothing. repeat split; [simpl; lia | constructor].
  - destruct (list_line_eq item_type stats line s) as (r1 & c1 & l1 & E1 & Hn1 & F1).
    destruct (IH (grow r1 c1 l1 s)) as (r2 & c2 & l2 & E2 & Hn2 & F2).
    exists (r1 ++ r2)%list, (c1 ++ c2)%list, (l1 ++ l2)%list.
    cbn [for_each]. unfold bind at 1. rewrite E1, E2, grow_grow.
    repeat split.
    + rewrite length_app. simpl. lia.
    + apply Forall_app. now split.
Qed.


Lemma task_ok (command item_type : string) (s : State) :
  Py.truthy (snd (streams_of (runtime s (issued s) command))) = false ->
  exists rows cmds lg,
    exec (task command item_type) s =
    grow rows (command :: cmds) lg (exec tree_clear_except_projects s) /\
    Forall (fun r => type_of r = item_type /\ is_project r = false) rows.
Proof.
  intros H. unfold task, exec at 1.
  destruct (run_docker_command_eq command s) as [l1 E].
  unfold bind at 1. rewrite E.
  destruct (streams_of (runtime s (issued s) command)) as [out err].
  cbn [snd] in H. rewrite H.
  unfold bind at 1. unfold tree_clear_except_projects at 1.
  set (s1 := set_focus _ _).
  assert (Hstats : exists stats c2 l2,
             (if item_type =? "container"
              then ' (stats_output, _) <- run_docker_command cmd_stats;;
                   ret (stats_of_lines (Py.split Py.NL (Py.strip stats_output)) [])
              else ret []) s1 = (stats, touch c2 l2 EmptyString s1)).
  { destruct (item_type =? "container").
    - destruct (run_docker_command_eq cmd_stats s1) as [l2 E2].
      unfold bind. rewrite E2. destruct (streams_of _) as [o2 e2].
      unfold ret. now do 3 eexists.
    - exists [], [], []. unfold ret. now rewrite touch_nothing. }
  destruct Hstats as (stats & c2 & l2 & Es).
  unfold bind at 1. rewrite Es.
  set (s2 := touch c2 l2 EmptyString s1).
  assert (Hloop : exists rows c3 l3,
             (if match Py.split Py.NL (Py.strip out) with
                 | [] => true
                 | [l] => negb (Py.truthy l)
                 | _ => false
                 end
              then ret tt
              else for_each (list_line item_type stats) (Py.split Py.NL (Py.strip out))) s2
             = (tt, grow rows c3 l3 s2) /\
             Forall (fun r => type_of r = item_type /\ is_project r = false) rows).
  { destruct (match Py.split Py.NL (Py.strip out) with
              | [] => true | [l] => negb (Py.truthy l) | _ => false end).
    - exists [], [], []. rewrite grow_nothing. split; [reflexivity | constructor].
    - destruct (for_each_list_line item_type stats (Py.split Py.NL (Py.strip out)) s2)
        as (rows & c3 & l3 & E3 & _ & F3).
      now exists rows, c3, l3. }
  destruct Hloop as (rows & c3 & l3 & E3 & F3).
  rewrite E3. cbn [snd].
  exists rows, (c2 ++ c3)%list, (l1 ++ l2 ++ l3)%list. split; [|exact F3].
  unfold s2, s1, exec, tree_clear_except_projects. cbn [snd]. state_eq.
Qed.













Lemma filter_filter_same {A} (f : A -> bool) (l : list A) :
  filter f (filter f l) = filter f l.
Proof.
  induction l as [|x l IH]; simpl; [reflexivity|].
  destruct (f x) eqn:E; simpl; [rewrite E, IH|]; auto.
Qed.

(** A launch that raises is a failure too: the stderr returned is not empty. *)
Lemma raised_launch_has_stderr (e : string) :
  Py.truthy (snd (streams_of (Raised e))) = true.
Proof. reflexivity. Qed.







(** The stale container and the image are gone, the listed container is
    stored with its live statistics, the project is kept. *)
Example stale_state_refreshed :
  tree (exec (run_job (Task cmd_containers "container")) stale_state)
  = [project_row "demo"; web1_row].
Proof. vm_compute. reflexivity. Qed.

(** A line written as six fields joined by the delimiter, none of which
    holds the delimiter, splits into these six fields. *)
Lemma six_fields_split (id image command created status name : string) :
  Forall (fun f => Py.all_chars (fun c => negb (Ascii.eqb c "|")) f = true)
         [id; image; command; created; status; name] ->
  Py.split "|" (Py.join "|" [id; image; command; created; status; name])
  = [id; image; command; created; status; name].
Proof. intros H. apply split_join; [discriminate | exact H]. Qed.

(** C5.  A container listing line with exactly the six fields id, image,
    command, created, status and name, whose id passes the identifier
    pattern, makes the listing loop insert exactly one item; the item is
    the container with that id, and its running-state is [Running] exactly
    when the status field has [Up] as a substring (else it is [Stopped]). *)
Theorem container_line_gives_one_record
        (stats : stats_dict) (s : State)
        (line id image command created status name : string) :
  Py.split "|" line = [id; image; command; created; status; name] ->
  docker_id_is_valid id = true ->
  exists r,
    tree (exec (list_line "container" stats line) s) = (tree s ++ [r])%list /\
    r = container_row id name image (Py.strip_char Py.DQ command) created
                      (Py.contains "Up" status)
                      (fst (stats_get stats id ("N/A", "N/A")))
                      (snd (stats_get stats id ("N/A", "N/A")))
                      (eval (get_container_size id) s) /\
    (running_state r = "Running" <-> exists pre post, status = pre ++ "Up" ++ post) /\
    (running_state r = "Stopped" <-> ~ exists pre post, status = pre ++ "Up" ++ post).
Proof.
  intros Hsplit _.
  assert (Hlen : 6 <= length (Py.split "|" line)) by (rewrite Hsplit; simpl; lia).
  destruct (list_line_container stats line s Hlen) as [lg E].
  rewrite Hsplit in E. cbn [Py.item nth] in E.
  eexists. split; [unfold exec; rewrite E; reflexivity|].
  split; [reflexivity|].
  unfold running_state, container_row. cbn [columns nth].
  rewrite <- contains_spec.
  destruct (Py.contains "Up" status); split; split; congruence.
Qed.

(** The end-to-end scenario of the specification: one listing line and one
    statistics line give one container item, running, with its CPU and
    memory columns. *)
Example end_to_end_refresh :
  tree (exec (run_job (Task cmd_containers "container"))
             (init_state web1_runtime [nginx_image_row] None))
  = [web1_row].
Proof. reflexivity. Qed.

Lemma container_line_gives_one_record_witness :
  Py.split "|" web1_line
  = ["abc123456789"; "nginx:latest";
     Py.dq ++ "nginx -g daemon off;" ++ Py.dq; "2024-01-01"; "Up 3 hours"; "web1"] /\
  docker_id_is_valid "abc123456789" = true /\
  exists r,
    tree (exec (list_line "container" [("abc123456789", ("2.3%", "15MiB / 1GiB"))]
                          web1_line)
               (init_state quiet_runtime [] None)) = [r] /\
    r = web1_row /\
    (running_state r = "Running" <->
     exists pre post, "Up 3 hours" = pre ++ "Up" ++ post) /\
    (running_state r = "Stopped" <->
     ~ exists pre post, "Up 3 hours" = pre ++ "Up" ++ post).
Proof.
  split; [reflexivity|]. split; [reflexivity|].
  apply (container_line_gives_one_record
           [("abc123456789", ("2.3%", "15MiB / 1GiB"))]
           (init_state quiet_runtime [] None) web1_line
           "abc123456789" "nginx:latest" (Py.dq ++ "nginx -g daemon off;" ++ Py.dq)
           "2024-01-01" "Up 3 hours" "web1");
    reflexivity.
Defined.

(** C6, as the specification states it, fails: a container line with two
    fields is passed over and nothing at all is reported for it, neither in
    the log, nor in the output box, nor in a message box. *)
Lemma short_line_reports_nothing :
  length (Py.split "|" "abc123456789|nginx") < 6 /\
  tree (exec (for_each (list_line "container" []) ["abc123456789|nginx"])
             daemon_down_state) = tree daemon_down_state /\
  ~ reported daemon_down_state
      (exec (for_each (list_line "container" []) ["abc123456789|nginx"])
            daemon_down_state).
Proof.
  split; [simpl; lia|]. split; [reflexivity|].
  unfold reported. intros [H | [H | H]]; now apply H.
Qed.

(** C6, amended.  A line with fewer fields than the schema of its kind (6
    for containers, 5 for images, 4 for networks) produces no record and is
    skipped silently: the loop body leaves the whole state as it was, so no
    error is reported for it, and the loop goes on with the remaining
    lines.  The body is a total function: nothing is raised. *)
Theorem short_line_is_skipped (item_type : string) (stats : stats_dict)
        (line : string) (rest : list string) (s : State) :
  (item_type = "container" /\ length (Py.split "|" line) < 6) \/
  (item_type = "image" /\ length (Py.split "|" line) < 5) \/
  (item_type = "network" /\ length (Py.split "|" line) < 4) ->
  list_line item_type stats line s = (tt, s) /\
  ~ reported s (exec (list_line item_type stats line) s) /\
  for_each (list_line item_type stats) (line :: rest) s
  = for_each (list_line item_type stats) rest s.
Proof.
  intros H. pose proof (list_line_short item_type stats line s H) as E.
  split; [exact E|]. split.
  - unfold exec. rewrite E. unfold reported. cbn [snd]. intuition.
  - cbn [for_each]. unfold bind. now rewrite E.
Qed.

Lemma short_line_is_skipped_witness :
  length (Py.split "|" "0123456789ab|bridge") < 4 /\
  for_each (list_line "network" []) ["0123456789ab|bridge"; "0123456789ab|b|c|d"]
           daemon_down_state
  = for_each (list_line "network" []) ["0123456789ab|b|c|d"] daemon_down_state.
Proof.
  split; [simpl; lia|].
  apply (short_line_is_skipped "network" [] "0123456789ab|bridge"
                               ["0123456789ab|b|c|d"] daemon_down_state).
  right. right. split; [reflexivity | simpl; lia].
Defined.

End Listing.

(* ================================================================== *)
(** ** Identifiers of stored items                                     *)
(* ================================================================== *)

Section StoredIdentifiers.

Lemma validate_docker_id_eq (docker_id : string) (s : State) :
  exists lg,
    validate_docker_id docker_id s
    = (docker_id_is_valid docker_id, touch [] lg EmptyString s).
Proof.
  unfold validate_docker_id, bind, logging, ret, touch. cbn.
  eexists. rewrite app_nil_r, append_empty_r. reflexivity.
Qed.

Ltac skip_line :=
  unfold ret, exec; cbn [snd]; intros r Hr; now left.

(** The loops of [search_items] insert an item only after its identifier
    passed [validate_docker_id]. *)
Lemma search_container_line_validates (query : string) (stats : stats_dict)
      (line : string) (s : State) (r : row) :
  In r (tree (exec (search_container_line query stats line) s)) ->
  In r (tree s) \/ docker_id_is_valid (text r) = true.
Proof.
  revert r. unfold search_container_line.
  destruct (negb (Py.truthy line) || negb (Py.contains query (Py.lower line)));
    [skip_line|].
  destruct (length (Py.split "|" line) <? 6)%nat; [skip_line|].
  destruct (Py.split "|" line) as [|f0 [|f1 [|f2 [|f3 [|f4 [|f5 [|f6 fs]]]]]]];
    try skip_line.
  destruct (validate_docker_id_eq f0 s) as [l0 E0].
  unfold exec, bind at 1. rewrite E0.
  destruct (docker_id_is_valid f0) eqn:V; cbn [negb]; [|skip_line].
  destruct (stats_get stats f0 ("N/A", "N/A")) as [cpu mem].
  destruct (get_container_size_eq f0 (touch [] l0 EmptyString s)) as [l1 E1].
  unfold bind. rewrite (run_pair (get_container_size f0) _), E1.
  unfold tree_insert, ret. cbn [snd tree set_tree touch].
  intros r Hr. apply in_app_or in Hr as [Hr | [<- | []]]; [now left | now right].
Qed.

Lemma search_image_line_validates (query line : string) (s : State) (r : row) :
  In r (tree (exec (search_image_line query line) s)) ->
  In r (tree s) \/ docker_id_is_valid (text r) = true.
Proof.
  revert r. unfold search_image_line.
  destruct (negb (Py.truthy line) || negb (Py.contains query (Py.lower line)));
    [skip_line|].
  destruct (length (Py.split "|" line) <? 5)%nat; [skip_line|].
  destruct (Py.split "|" line) as [|f0 [|f1 [|f2 [|f3 [|f4 [|f5 fs]]]]]];
    try skip_line.
  destruct (validate_docker_id_eq f2 s) as [l0 E0].
  unfold exec, bind at 1. rewrite E0.
  destruct (docker_id_is_valid f2) eqn:V; cbn [negb]; [|skip_line].
  unfold bind, tree_insert, ret. cbn [snd tree set_tree touch].
  intros r Hr. apply in_app_or in Hr as [Hr | [<- | []]]; [now left | now right].
Qed.

Lemma search_network_line_validates (query line : string) (s : State) (r : row) :
  In r (tree (exec (search_network_line query line) s)) ->
  In r (tree s) \/ docker_id_is_valid (text r) = true.
Proof.
  revert r. unfold search_network_line.
  destruct (negb (Py.truthy line) || negb (Py.contains query (Py.lower line)));
    [skip_line|].
  destruct (length (Py.split "|" line) <? 4)%nat; [skip_line|].
  destruct (Py.split "|" line) as [|f0 [|f1 [|f2 [|f3 [|f4 fs]]]]];
    try skip_line.
  destruct (validate_docker_id_eq f0 s) as [l0 E0].
  unfold exec, bind at 1. rewrite E0.
  destruct (docker_id_is_valid f0) eqn:V; cbn [negb]; [|skip_line].
  unfold bind, tree_insert, ret. cbn [snd tree set_tree touch].
  intros r Hr. apply in_app_or in Hr as [Hr | [<- | []]]; [now left | now right].
Qed.

(** C2.  The refresh loop does not check identifiers: on a container
    listing whose only line has the id [abc], which the pattern rejects,
    the refresh stores the item. *)
Theorem refresh_stores_invalid_identifier :
  docker_id_is_valid "abc" = false /\
  tree (exec (run_job (Task cmd_containers "container"))
             (init_state short_id_runtime [] None))
  = [short_id_row] /\
  text short_id_row = "abc".
Proof. repeat split. Qed.

(** The same line in the search loop is dropped. *)
Example search_drops_invalid_identifier :
  tree (exec (search_container_line "web" [] "abc|nginx|sh|2024-01-01|Up 1 hour|web")
             (init_state short_id_runtime [] None))
  = [].
Proof. reflexivity. Qed.

End StoredIdentifiers.

(* ================================================================== *)
(** ** The status poller                                               *)
(* ================================================================== *)

Section StatusPoller.

(** The liveness check answers from whether the launch raised, and from
    nothing else: the exit status of the probe is not looked at. *)
Lemma is_docker_running_eq (s : State) :
  eval is_docker_running s
  = match runtime s (issued s) "docker info" with
    | Exited _ _ _ => true
    | Raised _ => false
    end.
Proof.
  unfold eval, is_docker_running, bind, shell, logging, ret. cbn.
  now destruct (runtime s (issued s) "docker info").
Qed.

(** C7.  With the daemon down the probe [docker info] ends with exit
    status 1, and the liveness check still answers [True]: the tick shows
    the runtime as running. *)
Theorem liveness_true_on_failed_probe :
  runtime daemon_down_state (issued daemon_down_state) "docker info"
  = Exited EmptyString "Cannot connect to the Docker daemon" 1 /\
  eval is_docker_running daemon_down_state = true /\
  status_label (exec update_docker_status_tick daemon_down_state)
  = "Docker Status: Running" /\
  status_indicator (exec update_docker_status_tick daemon_down_state) = "green".
Proof. repeat split. Qed.

(** Only a launch that raises is shown as not running. *)
Lemma tick_not_running_iff_raised (s : State) :
  status_label (exec update_docker_status_tick s) = "Docker Status: Not Running"
  <-> exists e, runtime s (issued s) "docker info" = Raised e.
Proof.
  unfold exec, update_docker_status_tick, is_docker_running,
    bind, shell, logging, ret, status_config. cbn.
  destruct (runtime s (issued s) "docker info") as [e | out err rc]; cbn.
  - split; [intros _; now exists e | reflexivity].
  - split; [discriminate | intros [e H]; discriminate].
Qed.

End StatusPoller.

(* ================================================================== *)
(** ** Operations                                                      *)
(* ================================================================== *)

Section Operations.











Lemma selected_item_cases (s : State) :
  (exists lg id item_type, selected_item s = (Some (id, item_type), touch [] lg EmptyString s))
  \/ (exists st, selected_item s = (None, st)).
Proof.
  destruct (selected_item s) as [[[id item_type]|] st] eqn:E; [left | right; now exists st].
  revert E. unfold selected_item, tree_focus. unfold bind at 1.
  destruct (focus s) as [item|].
  - destruct (validate_docker_id_eq (text item) s) as [l0 E0].
    unfold bind at 1. rewrite E0.
    destruct (negb (docker_id_is_valid (text item)) && negb (type_of item =? "project")).
    + unfold bind, messagebox, ret. discriminate.
    + unfold bind, logging, ret. cbn [snd]. intros E. injection E as <- <- <-.
      eexists (l0 ++ [_])%list, _, _. f_equal.
      unfold set_log, touch. cbn. rewrite app_assoc. reflexivity.
  - unfold bind, messagebox, ret. discriminate.
Qed.

(** A selection that is returned leaves only a trace in the log. *)
Lemma selected_item_some (s : State) (id item_type : string) :
  eval selected_item s = Some (id, item_type) ->
  exists lg, exec selected_item s = touch [] lg EmptyString s.
Proof.
  unfold eval, exec.
  destruct (selected_item_cases s) as [(lg & id' & item_type' & E) | (st & E)];
    rewrite E; cbn [fst snd]; [|discriminate].
  intros _. now exists lg.
Qed.

Lemma selected_item_ignores_tree (t : list row) (s : State) :
  eval selected_item (set_tree t s) = eval selected_item s.
Proof.
  unfold eval, selected_item, tree_focus, validate_docker_id, bind, logging,
    messagebox, ret.
  change (focus (set_tree t s)) with (focus s).
  destruct (focus s) as [item|]; [|reflexivity].
  cbv zeta.
  destruct (docker_id_is_valid (text item)), (type_of item =? "project"); reflexivity.
Qed.

Lemma copy_conflict_state (s : State)
      (container_id item_type new_container_name : string)
      (names_output names_stderr : string) (rc : Z) :
  eval selected_item s = Some (container_id, item_type) ->
  Py.truthy container_id = true ->
  Py.truthy (Py.strip new_container_name) = true ->
  runtime s (issued s) cmd_names = Exited names_output names_stderr rc ->
  In new_container_name (Py.split Py.NL (Py.strip names_output)) ->
  exists lg,
    exec (copy_container (Some new_container_name)) s
    = set_boxes
        (boxes s ++ [(ShowError, "Name Conflict",
                      ("A container with the name '" ++ new_container_name
                       ++ "' already exists.")%string)])
        (touch [cmd_names] lg EmptyString s).
Proof.
  intros Hsel Hid Hname Hrt Hin.
  unfold copy_container.
  rewrite exec_bind, Hsel. cbv iota beta. rewrite Hid.
  destruct (selected_item_some s container_id item_type Hsel) as (lg & Es).
  assert (Hnt : Py.truthy new_container_name = true).
  { destruct new_container_name; [discriminate | reflexivity]. }
  rewrite Hnt, Hname. cbn [negb].
  set (s1 := exec selected_item s) in *.
  assert (Hrt1 : runtime s1 (issued s1) cmd_names = Exited names_output names_stderr rc).
  { rewrite Es. cbn. now rewrite app_nil_r. }
  destruct (run_docker_command_eq cmd_names s1) as [l1 E1].
  unfold exec, bind at 1. rewrite E1, Hrt1. cbn [streams_of].
  assert (Hmem : Py.str_in new_container_name
                           (Py.split Py.NL (Py.strip names_output)) = true).
  { unfold Py.str_in. apply existsb_exists. exists new_container_name.
    split; [assumption | apply String.eqb_refl]. }
  rewrite Hmem. unfold messagebox. cbn [snd].
  rewrite Es, touch_touch. exists (lg ++ l1)%list. reflexivity.
Qed.

(** C9.  In a copy, once a container is selected and the operator gave a
    name that is not blank, the names of the current containers are listed
    afresh from the runtime.  When the name is among them, the operator gets
    the name-conflict error; the listing is the only command that was run, so
    neither the commit nor the create is issued; no thread is started; and
    the outcome is the same whatever items the Treeview holds, since the
    check reads the fresh listing and not the items shown. *)
Theorem copy_name_conflict (s : State)
        (container_id item_type new_container_name : string)
        (names_output names_stderr : string) (rc : Z) :
  eval selected_item s = Some (container_id, item_type) ->
  Py.truthy container_id = true ->
  Py.truthy (Py.strip new_container_name) = true ->
  runtime s (issued s) cmd_names = Exited names_output names_stderr rc ->
  In new_container_name (Py.split Py.NL (Py.strip names_output)) ->
  let s' := exec (copy_container (Some new_container_name)) s in
  boxes s' = (boxes s ++ [(ShowError, "Name Conflict",
                           ("A container with the name '" ++ new_container_name
                            ++ "' already exists.")%string)])%list /\
  issued s' = (issued s ++ [cmd_names])%list /\
  started s' = started s /\
  tree s' = tree s /\
  forall t, boxes (exec (copy_container (Some new_container_name)) (set_tree t s))
            = boxes s'.
Proof.
  intros Hsel Hid Hname Hrt Hin s'.
  destruct (copy_conflict_state s container_id item_type new_container_name
              names_output names_stderr rc Hsel Hid Hname Hrt Hin) as [lg E].
  unfold s'. rewrite E. repeat split.
  intros t.
  destruct (copy_conflict_state (set_tree t s) container_id item_type
              new_container_name names_output names_stderr rc) as [lg' E'];
    try assumption.
  - now rewrite selected_item_ignores_tree.
  - rewrite E'. reflexivity.
Qed.

Lemma copy_name_conflict_witness :
  eval selected_item web_db_state = Some ("abc123456789", "container") /\
  In "web" (Py.split Py.NL (Py.strip ("web" ++ Py.nl ++ "db" ++ Py.nl))) /\
  issued (exec (copy_container (Some "web")) web_db_state) = [cmd_names] /\
  started (exec (copy_container (Some "web")) web_db_state) = [].
Proof.
  split; [reflexivity|]. split; [now left|].
  destruct (copy_name_conflict web_db_state "abc123456789" "container" "web"
              ("web" ++ Py.nl ++ "db" ++ Py.nl) EmptyString 0)
    as (_ & Hissued & Hstarted & _ & _);
    try reflexivity.
  - now left.
  - split; assumption.
Defined.

(** Without a conflict the copy is started in a thread of its own. *)
Example copy_without_conflict :
  started (exec (copy_container (Some "cache")) web_db_state)
  = [CopyContainerThread "abc123456789" "cache"].
Proof. reflexivity. Qed.

End Operations.

(* ================================================================== *)
(** ** Refreshes that run at the same time                             *)
(* ================================================================== *)

Section Overlap.

Import Treeview.

(** *** Lists of items with distinct identifiers *)

Lemma find_has_none (l : list entry) (i : nat) :
  ~ In i (map iid l) -> find (has i) l = None.
Proof.
  induction l as [|y l IH]; intros H; cbn [find]; [reflexivity|].
  unfold has at 1. destruct (Nat.eqb_spec (iid y) i) as [E|E].
  - exfalso. apply H. left. exact E.
  - apply IH. intros Hin. apply H. right. exact Hin.
Qed.

Lemma find_has_in (l : list entry) (x : entry) :
  NoDup (map iid l) -> In x l -> find (has (iid x)) l = Some x.
Proof.
  induction l as [|y l IH]; intros Hnd Hin; [destruct Hin|].
  cbn [map] in Hnd. apply NoDup_cons_iff in Hnd as [Hy Hnd].
  cbn [find]. unfold has at 1. destruct Hin as [-> | Hin].
  - now rewrite Nat.eqb_refl.
  - destruct (Nat.eqb_spec (iid y) (iid x)) as [E|E]; [|now apply IH].
    exfalso. apply Hy. rewrite E. now apply in_map.
Qed.

Lemma existsb_has_in (l : list entry) (x : entry) :
  In x l -> existsb (has (iid x)) l = true.
Proof.
  intros H. apply existsb_exists. exists x. split; [exact H|].
  unfold has. apply Nat.eqb_refl.
Qed.

Lemma existsb_has_none (l : list entry) (i : nat) :
  ~ In i (map iid l) -> existsb (has i) l = false.
Proof.
  intros H. destruct (existsb (has i) l) eqn:E; [|reflexivity].
  apply existsb_exists in E as (y & Hy & Hi). unfold has in Hi.
  apply Nat.eqb_eq in Hi. exfalso. apply H. rewrite <- Hi. now apply in_map.
Qed.

Lemma filter_has_absent (l : list entry) (i : nat) :
  ~ In i (map iid l) -> filter (fun y => negb (has i y)) l = l.
Proof.
  induction l as [|y l IH]; intros H; cbn [filter]; [reflexivity|].
  unfold has at 1. destruct (Nat.eqb_spec (iid y) i) as [E|E].
  - exfalso. apply H. left. exact E.
  - cbn [negb]. f_equal. apply IH. intros Hin. apply H. right. exact Hin.
Qed.

Lemma filter_has_remove (l1 l2 : list entry) (x : entry) :
  NoDup (map iid (l1 ++ x :: l2)) ->
  filter (fun y => negb (has (iid x) y)) (l1 ++ x :: l2) = (l1 ++ l2)%list.
Proof.
  intros Hnd. rewrite map_app in Hnd. cbn [map] in Hnd.
  pose proof (NoDup_remove_2 _ _ _ Hnd) as Hx.
  rewrite filter_app. cbn [filter]. unfold has at 2. rewrite Nat.eqb_refl. cbn [negb].
  rewrite !filter_has_absent; [reflexivity | |];
    intros Hin; apply Hx, in_or_app; [right | left]; exact Hin.
Qed.

Lemma nodup_filter_front (f : entry -> bool) (front rest : list entry) :
  NoDup (map iid (front ++ rest)) -> NoDup (map iid (filter f front ++ rest)).
Proof.
  induction front as [|y front IH]; cbn [app filter map]; intros H; [exact H|].
  apply NoDup_cons_iff in H as [Hy H].
  destruct (f y); [|now apply IH].
  cbn [app map]. apply NoDup_cons_iff. split; [|now apply IH].
  intros Hin. apply Hy. rewrite map_app in *. apply in_app_or in Hin as [Hin|Hin];
    apply in_or_app; [left | now right].
  apply in_map_iff in Hin as (z & Hz & Hin). apply filter_In in Hin as [Hin _].
  rewrite <- Hz. now apply in_map.
Qed.

Lemma forall_filter_front {Q : entry -> Prop} (f : entry -> bool) (front rest : list entry) :
  Forall Q (front ++ rest) -> Forall Q (filter f front ++ rest).
Proof.
  intros H. apply Forall_app in H as [H1 H2]. apply Forall_app. split; [|exact H2].
  rewrite Forall_forall in *. intros y Hy. apply filter_In in Hy as [Hy _]. auto.
Qed.

(** An item that is not a project and that a clearing loop went past is
    gone; a project that it went past is still there. *)
Lemma passed_item_gone (done rest : list entry) (x : entry) :
  NoDup (map iid (done ++ rest)) -> In x done -> is_project_entry x = false ->
  ~ In (iid x) (map iid (filter is_project_entry done ++ rest)).
Proof.
  intros Hnd Hin Hp Habs.
  apply in_map_iff in Habs as (y & Hid & Hy).
  assert (Hy' : In y (done ++ rest)).
  { apply in_app_or in Hy as [Hy|Hy]; apply in_or_app; [left | now right].
    now apply filter_In in Hy as [Hy _]. }
  assert (Hx' : In x (done ++ rest)) by (apply in_or_app; now left).
  assert (y = x).
  { pose proof (find_has_in _ _ Hnd Hy') as F1.
    pose proof (find_has_in _ _ Hnd Hx') as F2.
    rewrite Hid in F1. congruence. }
  subst y. apply in_app_or in Hy as [Hy|Hy].
  - apply filter_In in Hy as [_ Hy]. congruence.
  - rewrite map_app in Hnd. apply in_split in Hin as (d1 & d2 & ->).
    rewrite map_app in Hnd. cbn [map] in Hnd. rewrite <- app_assoc in Hnd.
    cbn [app] in Hnd. apply NoDup_remove_2 in Hnd. apply Hnd.
    apply in_or_app. right. apply in_or_app. right. now apply in_map.
Qed.

Lemma passed_project_kept (done rest : list entry) (x : entry) :
  In x done -> is_project_entry x = true ->
  In x (filter is_project_entry done ++ rest).
Proof. intros Hin Hp. apply in_or_app. left. apply filter_In. now split. Qed.

Lemma records_of_projects (l : list entry) :
  map record (filter is_project_entry l) = filter is_project (map record l).
Proof.
  induction l as [|y l IH]; cbn [filter map]; [reflexivity|].
  unfold is_project_entry at 1. destruct (is_project (record y)); cbn [map]; now rewrite IH.
Qed.

Lemma no_project_among (l : list entry) :
  Forall (fun x => is_project_entry x = false) l -> filter is_project_entry l = [].
Proof.
  induction 1 as [|y l Hy _ IH]; cbn [filter]; [reflexivity|]. now rewrite Hy.
Qed.

(** *** Interleavings *)

Lemma interleaving_sym {X} (a b m : list X) :
  interleaving a b m -> interleaving b a m.
Proof. induction 1; constructor; assumption. Qed.

Lemma interleaving_nil_l {X} (b m : list X) : interleaving [] b m -> m = b.
Proof.
  intros H. remember [] as a eqn:Ea. induction H; try discriminate; [reflexivity|].
  f_equal. auto.
Qed.

Lemma interleaving_nil_r {X} (a m : list X) : interleaving a [] m -> m = a.
Proof. intros H. apply interleaving_sym in H. now apply interleaving_nil_l. Qed.

Lemma interleaving_snoc_l {X} (a b m : list X) (x : X) :
  interleaving a b m -> interleaving (a ++ [x]) b (m ++ [x]).
Proof.
  induction 1; cbn [app].
  - apply il_left, il_nil.
  - now apply il_left.
  - now apply il_right.
Qed.

(** *** Steps of a task *)

Ltac inv_fields H :=
  destruct H as [Hch Hnd Hbd Hpr Hfr Hx Hy Hmg Hsd Hld].
Lemma nodup_snoc {X} (l : list X) (x : X) : NoDup l -> ~ In x l -> NoDup (l ++ [x]).
Proof.
  induction l as [|y l IH]; cbn [app]; intros Hnd Hx.
  - constructor; [intros [] | constructor].
  - apply NoDup_cons_iff in Hnd as [Hy Hnd]. apply NoDup_cons_iff. split.
    + intros Hin. apply in_app_or in Hin as [Hin | [-> | []]]; [now apply Hy|].
      apply Hx. now left.
    + apply IH; [exact Hnd|]. intros Hin. apply Hx. now right.
Qed.

(** The other task went past the item at the head of the common part. *)
Lemma thread_inv_advance (rows : list row) (done c : list entry) (h : entry)
      (g : trace) (th : thread) :
  thread_inv rows done (h :: c) g th ->
  thread_inv rows (done ++ [h]) c (mkTrace (lag g ++ [h]) (pre g) (put g)) th.
Proof.
  destruct th as [r | p r | i p r | r | ]; cbn [thread_inv lag pre put]; try tauto.
  - intros (Hr & Hpre & Hput & Hp & Hi). repeat split; auto.
    + rewrite <- app_assoc. exact Hp.
    + apply incl_app; [now apply incl_appl | apply incl_appr, incl_refl].
  - intros (Hr & Hpre & Hput & Hp & Hi & Hh). repeat split; auto.
    + rewrite <- app_assoc. exact Hp.
    + apply incl_app; [now apply incl_appl | apply incl_appr, incl_refl].
    + intros x. rewrite <- app_assoc. apply Hh.
Qed.

Lemma clearing_puts_nothing (rows : list row) (done common : list entry)
      (g : trace) (th : thread) :
  thread_inv rows done common g th -> clearing th = true -> put g = [].
Proof. destruct th; cbn; try discriminate; tauto. Qed.

Lemma thread_inv_rebase (rows : list row) (done common l : list entry)
      (g : trace) (th : thread) :
  thread_inv rows done common g th -> clearing th = false ->
  thread_inv rows [] l (mkTrace [] (pre g ++ put g) []) th.
Proof.
  destruct th as [r | p r | i p r | r | ]; cbn [thread_inv clearing lag pre put];
    try discriminate.
  - intros (Hr & -> & ->) _. auto.
  - intros -> _. cbn [app]. now rewrite <- app_assoc.
  - auto.
Qed.


(** One step of a task keeps the invariant. *)
Lemma thread_step_inv (P rx ry : list row) (done common fresh : list entry)
      (gx gy : trace) (tv tv' : t) (tx tx' ty : thread) :
  Forall (fun r => is_project r = false) rx ->
  inv P rx ry done common fresh gx gy tv tx ty ->
  thread_step tx tv = (tx', tv') ->
  exists done' common' fresh' gx' gy',
    inv P rx ry done' common' fresh' gx' gy' tv' tx' ty /\
    (ended ty = true -> put gy = [] -> sound gx tx ->
     put gy' = [] /\ sound gx' tx').
Proof.
  intros Hrx Hinv Hstep. inv_fields Hinv.
  assert (Hnd' : NoDup (map iid (children tv))).
  { rewrite Hch. now apply nodup_filter_front. }
  destruct tx as [r | p r | i p r | r | ]; cbn [thread_step] in Hstep.
  - (* tree.get_children() *)
    injection Hstep as <- <-. destruct Hx as (-> & Hpre & Hput).
    destruct (clearing ty) eqn:Hcl.
    + pose proof (clearing_puts_nothing _ _ _ _ _ Hy Hcl) as Hputy.
      rewrite Hput, Hputy in Hmg. apply interleaving_nil_l in Hmg.
      apply map_eq_nil in Hmg. subst fresh.
      exists done, common, [], (mkTrace (filter is_project_entry done) [] []), gy. split.
      * constructor; cbn [lag pre put]; auto.
        -- cbn [thread_inv lag pre put]. repeat split; auto.
           ++ unfold get_children. rewrite Hch, app_nil_r. reflexivity.
           ++ apply incl_filter.
        -- rewrite Hputy. constructor.
        -- left. split; [reflexivity|]. cbn [lag].
           apply Forall_forall. intros x Hin. now apply filter_In in Hin.
        -- intros Hc. destruct (Hld Hc) as [[Hc1 _] | [H | [[_ Hc2] | [[r' ->] _]]]];
             try discriminate; [now (right; left) | congruence].
      * intros He. destruct ty; discriminate.
    + exists [], (children tv), [], (mkTrace [] [] []), (mkTrace [] (pre gy ++ put gy) []).
      split.
      * constructor; cbn [lag pre put app filter]; rewrite ?app_nil_r; auto.
        -- rewrite Hch. now apply forall_filter_front.
        -- rewrite Hch, !filter_app, filter_filter_same, (no_project_among fresh Hfr),
             app_nil_r, <- filter_app. exact Hpr.
        -- cbn [thread_inv lag pre put]. repeat split; auto. apply incl_refl.
        -- exact (thread_inv_rebase _ _ _ _ _ _ Hy Hcl).
        -- constructor.
        -- left. split; [reflexivity | constructor].
        -- intros _. left. split; reflexivity.
      * intros _ _ _. split; [reflexivity|]. split; [reflexivity | constructor].
  - (* tree.item(i), or the end of the clearing loop *)
    destruct Hx as (-> & Hpre & Hput & Hp & Hincl).
    destruct (lag gx) as [|l ls] eqn:Hlag.
    + destruct common as [|h c]; cbn [app map] in Hp; subst p.
      * injection Hstep as <- <-.
        exists done, [], fresh, gx, gy. split.
        -- constructor; auto.
           ++ cbn [thread_inv]. now rewrite Hpre, Hput.
           ++ left. split; [exact Hpre | exact I].
           ++ intros H. now contradiction H.
        -- intros _ Hq _. split; [exact Hq|]. split; [exact Hpre | exact I].
      * assert (Hin : In h (children tv)).
        { rewrite Hch. apply in_or_app. right. now left. }
        unfold item in Hstep. rewrite (find_has_in _ _ Hnd' Hin) in Hstep.
        cbn [option_map] in Hstep.
        destruct (is_project (record h)) eqn:Hproj; injection Hstep as <- <-.
        -- exists (done ++ [h])%list, c, fresh, (mkTrace [] (pre gx) (put gx)),
             (mkTrace (lag gy ++ [h]) (pre gy) (put gy)). split.
           ++ constructor; cbn [lag pre put]; auto.
              ** rewrite Hch, filter_app. cbn [filter]. unfold is_project_entry at 3.
                 rewrite Hproj, <- app_assoc. reflexivity.
              ** rewrite <- app_assoc. exact Hnd.
              ** rewrite <- app_assoc. exact Hbd.
              ** rewrite <- app_assoc. exact Hpr.
              ** cbn [thread_inv lag pre put]. repeat split; auto. intros x [].
              ** now apply thread_inv_advance.
              ** left. split; [exact Hpre | constructor].
              ** intros _. left. split; reflexivity.
           ++ intros _ Hq _. split; [exact Hq|]. split; [exact Hpre | constructor].
        -- exists done, (h :: c), fresh, gx, gy. split.
           ++ constructor; auto.
              ** cbn [thread_inv]. rewrite Hlag. repeat split; auto.
                 intros x Hx. cbn in Hx. injection Hx as <-. exact Hproj.
              ** intros _. left. split; [reflexivity | exact Hlag].
           ++ intros _ Hq _. split; [exact Hq|]. split; [exact Hpre|].
              rewrite Hlag. constructor.
    + cbn [app map] in Hp. subst p.
      assert (Hl : In l done) by (apply Hincl; now left).
      assert (Hlead : common <> [] -> leads gy ty).
      { intros Hc.
        destruct (Hld Hc) as [[_ H] | [H | [[[r' H] _] | [_ H]]]];
          try discriminate; auto.
        rewrite Hlag in H. discriminate. }
      destruct (is_project_entry l) eqn:Hproj.
      * assert (Hin : In l (children tv)).
        { rewrite Hch. now apply passed_project_kept. }
        unfold item in Hstep. rewrite (find_has_in _ _ Hnd' Hin) in Hstep.
        cbn [option_map] in Hstep. unfold is_project_entry in Hproj.
        rewrite Hproj in Hstep. injection Hstep as <- <-.
        exists done, common, fresh, (mkTrace ls (pre gx) (put gx)), gy. split.
        -- constructor; cbn [lag pre put]; auto.
           ++ cbn [thread_inv lag pre put]. repeat split; auto.
              intros x Hx. apply Hincl. now right.
           ++ destruct Hsd as [[_ Hs] | Hs]; [left | now right].
              split; [exact Hpre|]. cbn [lag]. rewrite Hlag in Hs. now inversion Hs.
        -- intros _ Hq [_ Hs]. split; [exact Hq|]. split; [exact Hpre|].
           cbn [lag]. rewrite Hlag in Hs. now inversion Hs.
      * assert (Hout : ~ In (iid l) (map iid (children tv))).
        { rewrite Hch. now apply passed_item_gone. }
        unfold item in Hstep. rewrite (find_has_none _ _ Hout) in Hstep.
        cbn [option_map] in Hstep. injection Hstep as <- <-.
        assert (Hns : ~ sound gx (AtItem (iid l :: map iid (ls ++ common)) rx)).
        { intros [_ Hs]. rewrite Hlag in Hs. inversion Hs. congruence. }
        exists done, common, fresh, gx, gy. split.
        -- constructor; auto.
           ++ destruct Hsd as [Hs | Hs]; [contradiction | now right].
        -- intros _ _ Hs. contradiction.
  - (* tree.delete(i) *)
    destruct Hx as (-> & Hpre & Hput & Hp & Hincl & Hhead).
    destruct (lag gx) as [|l ls] eqn:Hlag.
    + destruct common as [|h c]; cbn [app map] in Hp; [discriminate|].
      injection Hp as -> ->.
      assert (Hproj : is_project_entry h = false) by (apply Hhead; reflexivity).
      assert (Hin : In h (children tv)).
      { rewrite Hch. apply in_or_app. right. now left. }
      unfold delete in Hstep. rewrite (existsb_has_in _ _ Hin) in Hstep.
      injection Hstep as <- <-.
      exists (done ++ [h])%list, c, fresh, (mkTrace [] (pre gx) (put gx)),
        (mkTrace (lag gy ++ [h]) (pre gy) (put gy)). split.
      * constructor; cbn [lag pre put children next_iid]; auto.
        -- rewrite Hch. cbn [app]. rewrite filter_has_remove.
           ++ rewrite filter_app. cbn [filter]. rewrite Hproj, app_nil_r. reflexivity.
           ++ rewrite Hch in Hnd'. exact Hnd'.
        -- rewrite <- app_assoc. exact Hnd.
        -- rewrite <- app_assoc. exact Hbd.
        -- rewrite <- app_assoc. exact Hpr.
        -- cbn [thread_inv lag pre put]. repeat split; auto. intros x [].
        -- now apply thread_inv_advance.
        -- left. split; [exact Hpre | constructor].
        -- intros _. left. split; reflexivity.
      * intros _ Hq _. split; [exact Hq|]. split; [exact Hpre | constructor].
    + cbn [app map] in Hp. injection Hp as -> ->.
      assert (Hl : In l done) by (apply Hincl; now left).
      assert (Hproj : is_project_entry l = false) by (apply Hhead; reflexivity).
      assert (Hout : ~ In (iid l) (map iid (children tv))).
      { rewrite Hch. now apply passed_item_gone. }
      unfold delete in Hstep. rewrite (existsb_has_none _ _ Hout) in Hstep.
      injection Hstep as <- <-.
      assert (Hns : ~ sound gx (AtDelete (iid l) (map iid (ls ++ common)) rx)).
      { intros [_ Hs]. rewrite Hlag in Hs. inversion Hs. congruence. }
      exists done, common, fresh, gx, gy. split.
      * constructor; auto.
        -- destruct Hsd as [Hs | Hs]; [contradiction | now right].
        -- intros Hc. right. left.
           destruct (Hld Hc) as [[_ H] | [H | [[[r' H] _] | [_ H]]]];
             try discriminate; auto.
           rewrite Hlag in H. discriminate.
      * intros _ _ Hs. contradiction.
  - (* tree.insert(...) *)
    cbn [thread_inv] in Hx. destruct r as [|r0 rest]; injection Hstep as <- <-.
    + exists done, common, fresh, gx, gy. split; [constructor; auto | auto].
    + assert (Hr0 : is_project r0 = false).
      { rewrite Forall_forall in Hrx. apply Hrx. rewrite Hx.
        apply in_or_app. right. apply in_or_app. right. now left. }
      exists done, common, (fresh ++ [mkEntry (next_iid tv) r0])%list,
        (mkTrace (lag gx) (pre gx) (put gx ++ [r0])), gy. split.
      * constructor; cbn [lag pre put children next_iid insert]; auto.
        -- rewrite Hch, <- !app_assoc. reflexivity.
        -- rewrite !app_assoc, map_app. cbn [map iid]. apply nodup_snoc.
           ++ rewrite <- app_assoc. exact Hnd.
           ++ intros Hin. apply in_map_iff in Hin as (y & Hid & Hin).
              rewrite <- app_assoc in Hin. rewrite Forall_forall in Hbd.
              apply Hbd in Hin. lia.
        -- rewrite !app_assoc. apply Forall_app. split.
           ++ rewrite <- app_assoc. eapply Forall_impl; [|exact Hbd].
              intros y Hlt. cbn beta in *. lia.
           ++ constructor; [cbn [iid]; lia | constructor].
        -- apply Forall_app. split; [exact Hfr|]. constructor; [exact Hr0 | constructor].
        -- cbn [thread_inv lag pre put]. rewrite Hx, <- !app_assoc. reflexivity.
        -- rewrite map_app. cbn [map record]. now apply interleaving_snoc_l.
        -- intros Hc.
           destruct (Hld Hc) as [[H _] | [H | [[[r' H] _] | [H _]]]]; try discriminate.
           ++ right. left. exact H.
           ++ right. right. right. split; [exact H | reflexivity].
      * intros _ Hq [Hs _]. split; [exact Hq|]. split; [exact Hs | exact I].
  - (* ended by the exception *)
    injection Hstep as <- <-.
    exists done, common, fresh, gx, gy. split; [constructor; auto | auto].
Qed.

(** *** Runs of two tasks *)

Lemma inv_swap (P rx ry : list row) (done common fresh : list entry)
      (gx gy : trace) (tv : t) (tx ty : thread) :
  inv P rx ry done common fresh gx gy tv tx ty ->
  inv P ry rx done common fresh gy gx tv ty tx.
Proof.
  intros H. inv_fields H. constructor; auto.
  - now apply interleaving_sym.
  - tauto.
  - intros Hc. specialize (Hld Hc). tauto.
Qed.

(** A task that has ended takes no more steps. *)
Lemma ended_thread_step (th : thread) (tv : t) :
  ended th = true -> thread_step th tv = (th, tv).
Proof. destruct th as [r | p r | i p r | [|r0 r] | ]; try discriminate; reflexivity. Qed.

Lemma step_inv (P A B : list row) (c : threads) (who : thread_id)
      (done common fresh : list entry) (ga gb : trace) :
  Forall (fun r => is_project r = false) A ->
  Forall (fun r => is_project r = false) B ->
  inv P A B done common fresh ga gb (view c) (first c) (second c) ->
  exists done' common' fresh' ga' gb',
    inv P A B done' common' fresh' ga' gb'
        (view (step c who)) (first (step c who)) (second (step c who)) /\
    forall w, alone w ga gb c -> alone w ga' gb' (step c who).
Proof.
  intros HA HB Hinv. destruct who; unfold step.
  - destruct (ended (first c)) eqn:He.
    + rewrite (ended_thread_step _ _ He). cbn [view first second].
      exists done, common, fresh, ga, gb. split; [exact Hinv|].
      intros [|]; cbn [alone first second]; auto.
    + destruct (thread_step (first c) (view c)) as [th tv] eqn:E.
      cbn [view first second].
      destruct (thread_step_inv _ _ _ _ _ _ _ _ _ _ _ _ _ HA Hinv E)
        as (d' & c' & f' & ga' & gb' & Hinv' & Hal).
      exists d', c', f', ga', gb'. split; [exact Hinv'|].
      intros [|]; cbn [alone first second].
      * intros (H1 & H2 & H3). destruct (Hal H1 H2 H3). auto.
      * intros (H1 & _). congruence.
  - destruct (ended (second c)) eqn:He.
    + rewrite (ended_thread_step _ _ He). cbn [view first second].
      exists done, common, fresh, ga, gb. split; [exact Hinv|].
      intros [|]; cbn [alone first second]; auto.
    + destruct (thread_step (second c) (view c)) as [th tv] eqn:E.
      cbn [view first second]. apply inv_swap in Hinv.
      destruct (thread_step_inv _ _ _ _ _ _ _ _ _ _ _ _ _ HB Hinv E)
        as (d' & c' & f' & gb' & ga' & Hinv' & Hal).
      exists d', c', f', ga', gb'. split; [now apply inv_swap|].
      intros [|]; cbn [alone first second].
      * intros (H1 & _). congruence.
      * intros (H1 & H2 & H3). destruct (Hal H1 H2 H3). auto.
Qed.

Lemma run_threads_inv (P A B : list row) (sched : list thread_id) :
  Forall (fun r => is_project r = false) A ->
  Forall (fun r => is_project r = false) B ->
  forall (c : threads) (done common fresh : list entry) (ga gb : trace),
  inv P A B done common fresh ga gb (view c) (first c) (second c) ->
  exists done' common' fresh' ga' gb',
    inv P A B done' common' fresh' ga' gb'
        (view (run_threads sched c)) (first (run_threads sched c))
        (second (run_threads sched c)) /\
    forall w, alone w ga gb c -> alone w ga' gb' (run_threads sched c).
Proof.
  intros HA HB. induction sched as [|who sched IH]; intros c d cm f ga gb Hinv.
  - exists d, cm, f, ga, gb. split; [exact Hinv | auto].
  - destruct (step_inv P A B c who d cm f ga gb HA HB Hinv)
      as (d1 & c1 & f1 & ga1 & gb1 & Hinv1 & Hal1).
    destruct (IH (step c who) d1 c1 f1 ga1 gb1 Hinv1)
      as (d2 & c2 & f2 & ga2 & gb2 & Hinv2 & Hal2).
    exists d2, c2, f2, ga2, gb2. split; [exact Hinv2|].
    intros w Hw. apply Hal2, Hal1, Hw.
Qed.

(** At the start nothing is traced: every item is in the common part. *)
Lemma inv_start (tv : t) (A B : list row) :
  well_formed tv ->
  inv (filter is_project (records tv)) A B [] (children tv) []
      (mkTrace [] [] []) (mkTrace [] [] []) tv (AtGetChildren A) (AtGetChildren B).
Proof.
  intros [Hnd Hbd]. constructor; cbn [app filter lag pre put thread_inv]; rewrite ?app_nil_r; auto.
  - apply records_of_projects.
  - constructor.
  - left. split; [reflexivity | exact I].
  - intros _. right. right. left. split; [now exists A | reflexivity].
Qed.

(** When both tasks have ended no item of the common part is left. *)
Lemma inv_ended_common (P rx ry : list row) (done common fresh : list entry)
      (gx gy : trace) (tv : t) (tx ty : thread) :
  inv P rx ry done common fresh gx gy tv tx ty ->
  ended tx = true -> ended ty = true ->
  common = [] /\ records tv = (P ++ map record fresh)%list.
Proof.
  intros H Ex Ey. inv_fields H.
  assert (Hc : common = []).
  { destruct common as [|h c]; [reflexivity|]. exfalso.
    destruct Hld as [[H _] | [[H _] | [[[r H] _] | [[r H] _]]]];
      try discriminate; subst; try discriminate;
      destruct tx; destruct ty; discriminate. }
  split; [exact Hc|]. subst common.
  unfold records. rewrite Hch. cbn [app]. rewrite map_app.
  rewrite app_nil_r in Hpr. now rewrite Hpr.
Qed.

Lemma sound_ended (rows : list row) (done common : list entry) (g : trace) (th : thread) :
  thread_inv rows done common g th -> ended th = true -> sound g th -> put g = rows.
Proof.
  intros Hinv He [Hpre Hs].
  destruct th as [r | p r | i p r | [|r0 r] | ]; try discriminate; [|destruct Hs].
  cbn [thread_inv] in Hinv. rewrite Hpre, app_nil_r in Hinv. now symmetry.
Qed.

Lemma tail_ended (rows : list row) (done common : list entry) (g : trace) (th : thread) :
  thread_inv rows done common g th -> ended th = true -> is_tail (put g) rows.
Proof.
  intros Hinv He.
  destruct th as [r | p r | i p r | [|r0 r] | ]; try discriminate; cbn [thread_inv] in Hinv.
  - exists (pre g). now rewrite app_nil_r in Hinv.
  - exists rows. now rewrite Hinv, app_nil_r.
Qed.

(** A task that starts when the other has ended: every item shown then is
    in the common part of a new snapshot. *)
Lemma inv_rebase (P rx ry r : list row) (done common fresh : list entry)
      (gx gy : trace) (tv : t) (tx : thread) :
  inv P rx ry done common fresh gx gy tv tx (AtGetChildren r) ->
  clearing tx = false ->
  inv P rx ry [] (children tv) [] (mkTrace [] (pre gx ++ put gx) [])
      (mkTrace [] [] []) tv tx (AtGetChildren r).
Proof.
  intros H Hcl. inv_fields H.
  constructor; cbn [lag pre put app filter]; rewrite ?app_nil_r; auto.
  - rewrite Hch. now apply nodup_filter_front.
  - rewrite Hch. now apply forall_filter_front.
  - rewrite Hch, !filter_app, filter_filter_same, (no_project_among fresh Hfr),
      app_nil_r, <- filter_app. exact Hpr.
  - exact (thread_inv_rebase _ _ _ _ _ _ Hx Hcl).
  - cbn [thread_inv] in *. tauto.
  - constructor.
  - right. split; [reflexivity | exact I].
  - intros _. right. right. right. split; [now exists r | exact Hcl].
Qed.

Lemma run_threads_app (s1 s2 : list thread_id) (c : threads) :
  run_threads (s1 ++ s2) c = run_threads s2 (run_threads s1 c).
Proof. apply fold_left_app. Qed.

(** A task that ran while the other had ended shows its rows and no other. *)
Lemma alone_second_result (P A B : list row) (done common fresh : list entry)
      (ga gb : trace) (c : threads) :
  inv P A B done common fresh ga gb (view c) (first c) (second c) ->
  alone Second ga gb c -> ended (second c) = true ->
  records (view c) = (P ++ B)%list.
Proof.
  intros Hinv (He1 & Hput & Hs) He2.
  destruct (inv_ended_common _ _ _ _ _ _ _ _ _ _ _ Hinv He1 He2) as [_ ->].
  inv_fields Hinv.
  rewrite Hput in Hmg. apply interleaving_nil_l in Hmg. rewrite Hmg.
  now rewrite (sound_ended _ _ _ _ _ Hy He2 Hs).
Qed.

Lemma alone_first_result (P A B : list row) (done common fresh : list entry)
      (ga gb : trace) (c : threads) :
  inv P A B done common fresh ga gb (view c) (first c) (second c) ->
  alone First ga gb c -> ended (first c) = true ->
  records (view c) = (P ++ A)%list.
Proof.
  intros Hinv (He2 & Hput & Hs) He1.
  destruct (inv_ended_common _ _ _ _ _ _ _ _ _ _ _ Hinv He1 He2) as [_ ->].
  inv_fields Hinv.
  rewrite Hput in Hmg. apply interleaving_nil_r in Hmg. rewrite Hmg.
  now rewrite (sound_ended _ _ _ _ _ Hx He1 Hs).
Qed.

Lemma ended_not_clearing (th : thread) : ended th = true -> clearing th = false.
Proof. destruct th; try discriminate; reflexivity. Qed.

(** *** Every task ends *)

Lemma steps_left_decreases (th th' : thread) (tv tv' : t) :
  ended th = false -> thread_step th tv = (th', tv') ->
  steps_left th' tv' < steps_left th tv.
Proof.
  intros He Hstep.
  destruct th as [r | [|i p] r | i p r | [|r0 r] | ]; try discriminate;
    cbn [thread_step] in Hstep.
  - injection Hstep as <- <-. unfold get_children. cbn [steps_left].
    rewrite length_map. lia.
  - injection Hstep as <- <-. cbn [steps_left length]. lia.
  - destruct (item tv i) as [x|]; [destruct (is_project x)|];
      injection Hstep as <- <-; cbn [steps_left length]; lia.
  - destruct (delete tv i) as [x|]; injection Hstep as <- <-;
      cbn [steps_left length]; lia.
  - injection Hstep as <- <-. cbn [steps_left length]. lia.
Qed.

Lemma no_step_left (th : thread) (tv : t) : steps_left th tv = 0 -> ended th = true.
Proof.
  destruct th as [r | p r | i p r | [|r0 r] | ]; cbn [steps_left length];
    try reflexivity; lia.
Qed.

Lemma ended_no_step_left (th : thread) (tv : t) : ended th = true -> steps_left th tv = 0.
Proof. destruct th as [r | p r | i p r | [|r0 r] | ]; try discriminate; reflexivity. Qed.

Lemma first_ends (k : nat) :
  forall c, steps_left (first c) (view c) <= k ->
  ended (first (run_threads (repeat First k) c)) = true /\
  second (run_threads (repeat First k) c) = second c.
Proof.
  induction k as [|k IH]; intros c Hk; cbn [repeat run_threads fold_left].
  - split; [|reflexivity]. apply (no_step_left _ (view c)). lia.
  - fold (run_threads (repeat First k) (step c First)).
    assert (Hs : steps_left (first (step c First)) (view (step c First)) <= k
                 /\ second (step c First) = second c).
    { unfold step. destruct (ended (first c)) eqn:He.
      - rewrite (ended_thread_step _ _ He). cbn [first second view].
        rewrite (ended_no_step_left _ _ He). split; [lia | reflexivity].
      - destruct (thread_step (first c) (view c)) as [th tv] eqn:E.
        cbn [first second view].
        pose proof (steps_left_decreases _ _ _ _ He E). split; [lia | reflexivity]. }
    destruct Hs as [Hs1 Hs2]. destruct (IH _ Hs1) as [H1 H2].
    split; [exact H1 | congruence].
Qed.

Lemma second_ends (k : nat) :
  forall c, steps_left (second c) (view c) <= k ->
  ended (second (run_threads (repeat Second k) c)) = true /\
  first (run_threads (repeat Second k) c) = first c.
Proof.
  induction k as [|k IH]; intros c Hk; cbn [repeat run_threads fold_left].
  - split; [|reflexivity]. apply (no_step_left _ (view c)). lia.
  - fold (run_threads (repeat Second k) (step c Second)).
    assert (Hs : steps_left (second (step c Second)) (view (step c Second)) <= k
                 /\ first (step c Second) = first c).
    { unfold step. destruct (ended (second c)) eqn:He.
      - rewrite (ended_thread_step _ _ He). cbn [first second view].
        rewrite (ended_no_step_left _ _ He). split; [lia | reflexivity].
      - destruct (thread_step (second c) (view c)) as [th tv] eqn:E.
        cbn [first second view].
        pose proof (steps_left_decreases _ _ _ _ He E). split; [lia | reflexivity]. }
    destruct Hs as [Hs1 Hs2]. destruct (IH _ Hs1) as [H1 H2].
    split; [exact H1 | congruence].
Qed.

(** Whatever steps were taken, the run can go on until both tasks have
    ended. *)
Lemma both_end (c : threads) :
  exists more,
    ended (first (run_threads more c)) = true /\
    ended (second (run_threads more c)) = true.
Proof.
  destruct (first_ends _ c (le_n _)) as [H1 _].
  set (n := steps_left (first c) (view c)) in *.
  set (c1 := run_threads (repeat First n) c) in *.
  destruct (second_ends _ c1 (le_n _)) as [H2 H3].
  exists (repeat First n ++ repeat Second (steps_left (second c1) (view c1)))%list.
  rewrite run_threads_app. fold c1. split; [now rewrite H3 | exact H2].
Qed.

(** C3, amended.  Two refreshes of the same kind that found the items [A]
    and [B] run at the same time, their Treeview calls in any order.  When
    both have ended, the Treeview shows the Project items as they were,
    followed by an interleaving of two lists that keeps the order of each:
    one of them is [A] or [B] in full, the other is what is left of the
    other set after some of its first items (all of them, some, or none).
    So one of the two sets is always shown in full, and no item of a runtime
    kind that was stored before is left; but the items of the other set may
    be shown with it, in whole or in part.  A refresh that ends with
    [TclError] has inserted nothing, and the set of the other is then shown
    in full.  When one refresh has ended before the other takes its first
    step, exactly the set of the later one is shown.  Whatever steps were
    taken, the run can go on until both have ended. *)
Theorem replacements_show_one_set_in_full (tv : Treeview.t) (A B : list row) :
  Treeview.well_formed tv ->
  Forall (fun r => is_project r = false) A ->
  Forall (fun r => is_project r = false) B ->
  (forall sched,
     ended (first (run_threads sched (start tv A B))) = true ->
     ended (second (run_threads sched (start tv A B))) = true ->
     exists sa sb m,
       Treeview.records (view (run_threads sched (start tv A B)))
       = (filter is_project (Treeview.records tv) ++ m)%list /\
       interleaving sa sb m /\
       ((sa = A /\ is_tail sb B) \/ (is_tail sa A /\ sb = B)) /\
       (first (run_threads sched (start tv A B)) = TclError -> sa = [] /\ sb = B) /\
       (second (run_threads sched (start tv A B)) = TclError -> sa = A /\ sb = [])) /\
  (forall s1 s2,
     ended (first (run_threads s1 (start tv A B))) = true ->
     second (run_threads s1 (start tv A B)) = AtGetChildren B ->
     ended (second (run_threads (s1 ++ s2) (start tv A B))) = true ->
     Treeview.records (view (run_threads (s1 ++ s2) (start tv A B)))
     = (filter is_project (Treeview.records tv) ++ B)%list) /\
  (forall s1 s2,
     ended (second (run_threads s1 (start tv A B))) = true ->
     first (run_threads s1 (start tv A B)) = AtGetChildren A ->
     ended (first (run_threads (s1 ++ s2) (start tv A B))) = true ->
     Treeview.records (view (run_threads (s1 ++ s2) (start tv A B)))
     = (filter is_project (Treeview.records tv) ++ A)%list) /\
  (forall sched, exists more,
     ended (first (run_threads (sched ++ more) (start tv A B))) = true /\
     ended (second (run_threads (sched ++ more) (start tv A B))) = true).
Proof.
  intros Hwf HA HB.
  pose proof (inv_start tv A B Hwf) as H0.
  set (P := filter is_project (records tv)) in *.
  split; [|split; [|split]].
  4:{ intros sched.
      destruct (both_end (run_threads sched (start tv A B))) as (more & H1 & H2).
      exists more. rewrite run_threads_app. now split. }
  - intros sched He1 He2.
    destruct (run_threads_inv P A B sched HA HB (start tv A B) _ _ _ _ _ H0)
      as (d & cm & f & ga & gb & Hinv & _).
    destruct (inv_ended_common _ _ _ _ _ _ _ _ _ _ _ Hinv He1 He2) as [_ Hrec].
    exists (put ga), (put gb), (map record f).
    split; [exact Hrec|]. inv_fields Hinv. split; [exact Hmg|].
    split; [|split].
    + destruct Hsd as [Hs | Hs].
      * left. split; [exact (sound_ended _ _ _ _ _ Hx He1 Hs)|].
        exact (tail_ended _ _ _ _ _ Hy He2).
      * right. split; [exact (tail_ended _ _ _ _ _ Hx He1)|].
        exact (sound_ended _ _ _ _ _ Hy He2 Hs).
    + intros Hraised. rewrite Hraised in Hx, Hsd. cbn [thread_inv] in Hx.
      split; [exact Hx|].
      destruct Hsd as [[_ []] | Hs]. exact (sound_ended _ _ _ _ _ Hy He2 Hs).
    + intros Hraised. rewrite Hraised in Hy, Hsd. cbn [thread_inv] in Hy.
      split; [|exact Hy].
      destruct Hsd as [Hs | [_ []]]. exact (sound_ended _ _ _ _ _ Hx He1 Hs).
  - intros s1 s2 He1 Hstart He2. rewrite run_threads_app in *.
    destruct (run_threads_inv P A B s1 HA HB (start tv A B) _ _ _ _ _ H0)
      as (d & cm & f & ga & gb & Hinv & _).
    set (mid := run_threads s1 (start tv A B)) in *.
    rewrite Hstart in Hinv.
    apply inv_rebase in Hinv; [|now apply ended_not_clearing].
    rewrite <- Hstart in Hinv.
    destruct (run_threads_inv P A B s2 HA HB mid _ _ _ _ _ Hinv)
      as (d2 & cm2 & f2 & ga2 & gb2 & Hinv2 & Hal).
    apply (alone_second_result _ _ _ _ _ _ _ _ _ Hinv2); [|exact He2].
    apply Hal. cbn [alone put]. split; [exact He1|]. split; [reflexivity|].
    split; [reflexivity|]. now rewrite Hstart.
  - intros s1 s2 He2 Hstart He1. rewrite run_threads_app in *.
    destruct (run_threads_inv P A B s1 HA HB (start tv A B) _ _ _ _ _ H0)
      as (d & cm & f & ga & gb & Hinv & _).
    set (mid := run_threads s1 (start tv A B)) in *.
    rewrite Hstart in Hinv. apply inv_swap in Hinv.
    apply inv_rebase in Hinv; [|now apply ended_not_clearing].
    apply inv_swap in Hinv. rewrite <- Hstart in Hinv.
    destruct (run_threads_inv P A B s2 HA HB mid _ _ _ _ _ Hinv)
      as (d2 & cm2 & f2 & ga2 & gb2 & Hinv2 & Hal).
    apply (alone_first_result _ _ _ _ _ _ _ _ _ Hinv2); [|exact He1].
    apply Hal. cbn [alone put]. split; [exact He2|]. split; [reflexivity|].
    split; [reflexivity|]. now rewrite Hstart.
Qed.

(** C3, as the specification states it, fails: after two refreshes that
    found [web1; db1] and [cache1], the Treeview shows [db1; cache1], which
    is neither set: it mixes items of both and lacks an item of the first. *)
Lemma overlapped_refreshes_mix_records :
  ended (first (run_threads overlapped_schedule
                  (start stored_view [web1_row; db1_row] [cache1_row]))) = true /\
  ended (second (run_threads overlapped_schedule
                   (start stored_view [web1_row; db1_row] [cache1_row]))) = true /\
  runtime_rows (Treeview.records (view (run_threads overlapped_schedule
                  (start stored_view [web1_row; db1_row] [cache1_row]))))
  = [db1_row; cache1_row] /\
  [db1_row; cache1_row] <> [web1_row; db1_row] /\
  [db1_row; cache1_row] <> [cache1_row].
Proof.
  split; [reflexivity|]. split; [reflexivity|]. split; [reflexivity|].
  split; discriminate.
Qed.

Lemma replacements_show_one_set_in_full_witness :
  Treeview.well_formed stored_view /\
  exists sa sb m,
    Treeview.records (view (run_threads overlapped_schedule
                              (start stored_view [web1_row; db1_row] [cache1_row])))
    = ([project_row "demo"] ++ m)%list /\
    interleaving sa sb m /\
    ((sa = [web1_row; db1_row] /\ is_tail sb [cache1_row]) \/
     (is_tail sa [web1_row; db1_row] /\ sb = [cache1_row])).
Proof.
  assert (Hwf : Treeview.well_formed stored_view).
  { split; cbn.
    - repeat constructor; cbn; intuition discriminate.
    - repeat constructor. }
  split; [exact Hwf|].
  destruct (replacements_show_one_set_in_full stored_view [web1_row; db1_row] [cache1_row]
              Hwf) as (Hany & _).
  - repeat constructor.
  - repeat constructor.
  - destruct (Hany overlapped_schedule eq_refl eq_refl)
      as (sa & sb & m & Hrec & Hmix & Hfull & _).
    exists sa, sb, m. split; [exact Hrec|]. split; [exact Hmix | exact Hfull].
Defined.

(** A task whose snapshot names an item that the other task has deleted
    ends with [TclError] and shows nothing; the set of the other task is
    then shown in full. *)
Example racing_refresh_raises :
  second (run_threads racing_schedule
            (start stored_view [web1_row; db1_row] [cache1_row])) = TclError /\
  Treeview.records (view (run_threads racing_schedule
                            (start stored_view [web1_row; db1_row] [cache1_row])))
  = [project_row "demo"; web1_row; db1_row].
Proof. split; reflexivity. Qed.

(** A task that runs while no other does leaves in the Treeview what
    [task] leaves: the thread model and the sequential one agree. *)
Lemma thread_alone_is_task (command item_type : string) (s : State) (tv : Treeview.t) :
  Py.truthy (snd (eval (run_docker_command command) s)) = false ->
  Treeview.well_formed tv ->
  Treeview.records tv = tree s ->
  exists rows,
    tree (exec (task command item_type) s) = (filter is_project (tree s) ++ rows)%list /\
    forall sched,
      ended (second (run_threads sched (mkThreads tv (AtInsert []) (AtGetChildren rows))))
      = true ->
      Treeview.records
        (view (run_threads sched (mkThreads tv (AtInsert []) (AtGetChildren rows))))
      = tree (exec (task command item_type) s).
Proof.
  rewrite eval_run_docker_command. intros Herr [Hnd Hbd] Hrec.
  destruct (task_ok command item_type s Herr) as (rows & cmds & lg & E & F).
  assert (Htree : tree (exec (task command item_type) s)
                  = (filter is_project (tree s) ++ rows)%list).
  { rewrite E, tree_grow. reflexivity. }
  exists rows. split; [exact Htree|]. intros sched He.
  assert (HB : Forall (fun r => is_project r = false) rows).
  { eapply Forall_impl; [|exact F]. now intros r [_ Hp]. }
  assert (H0 : inv (filter is_project (records tv)) [] rows [] (children tv) []
                   (mkTrace [] [] []) (mkTrace [] [] []) tv
                   (AtInsert []) (AtGetChildren rows)).
  { constructor; cbn [app filter lag pre put thread_inv]; rewrite ?app_nil_r; auto.
    - apply records_of_projects.
    - constructor.
    - left. split; [reflexivity | exact I].
    - intros _. right. right. right. split; [now exists rows | reflexivity]. }
  destruct (run_threads_inv _ [] rows sched (Forall_nil _) HB
              (mkThreads tv (AtInsert []) (AtGetChildren rows)) _ _ _ _ _ H0)
    as (d & cm & f & ga & gb & Hinv & Hal).
  rewrite Htree, <- Hrec.
  apply (alone_second_result _ _ _ _ _ _ _ _ _ Hinv); [|exact He].
  apply Hal. cbn. repeat split; auto.
Qed.

End Overlap.
